(** * pokemon-backend utility scripts: a shallow embedding

    Two scripts are modelled:
    - [src/data/tree.py]: [generate_directory_tree_text], the directory-tree
      reporter;
    - [src/update_imports.py]: [update_imports] and [main], the import
      rewriter.

    Python [str] values are Rocq [string]s holding the UTF-8 bytes of the
    text.  Every separator and every pattern of the two scripts is ASCII, so
    searching, splitting and counting on bytes agree with the same
    operations on code points. *)

From Stdlib Require Import Ascii String List Arith Lia DecimalString.
From stdpp Require Import base list strings gmap.

Set Warnings "-register-all".

(** ** Python string primitives used by the scripts *)

Module Py.

(** The one-character string written ["\n"] in Python. *)
Definition nl : string := String "010"%char "".

(** [s.startswith(p)] *)
Definition startswith (p s : string) : bool := String.prefix p s.

(** [s.endswith(p)]: some tail of [s] is [p]. *)
Fixpoint endswith (p s : string) : bool :=
  String.eqb p s ||
  match s with
  | EmptyString => false
  | String _ s' => endswith p s'
  end.

(** [s.count(c)] for a one-character [c]. *)
Fixpoint count (c : ascii) (s : string) : nat :=
  match s with
  | EmptyString => 0
  | String a s' => (if Ascii.eqb a c then 1 else 0) + count c s'
  end.

(** [s * n] *)
Fixpoint repeat_str (s : string) (n : nat) : string :=
  match n with
  | 0 => ""
  | S k => s +:+ repeat_str s k
  end.

(** [s.lstrip(c)] for a one-character [c]. *)
Fixpoint lstrip (c : ascii) (s : string) : string :=
  match s with
  | EmptyString => ""
  | String a s' => if Ascii.eqb a c then lstrip c s' else s
  end.

(** [s.split(c)] for a one-character [c]; the result is never empty. *)
Fixpoint split (c : ascii) (s : string) : list string :=
  match s with
  | EmptyString => [""]
  | String a s' =>
      if Ascii.eqb a c then "" :: split c s'
      else match split c s' with
           | x :: xs => String a x :: xs
           | [] => [String a ""]
           end
  end.

(** [sep.join(ls)] *)
Definition join (sep : string) (ls : list string) : string :=
  String.concat sep ls.

(** [str(n)] for a non-negative integer. *)
Definition str_of_nat (n : nat) : string :=
  NilZero.string_of_uint (Nat.to_uint n).

(** [c in s] for a one-character [c]. *)
Fixpoint contains (c : ascii) (s : string) : bool :=
  match s with
  | EmptyString => false
  | String a s' => Ascii.eqb a c || contains c s'
  end.

(** What reading a text file opened without [newline=] gives for the
    decoded text [s]: every ["\r\n"] and every other ["\r"] becomes
    ["\n"]. *)
Fixpoint universal_newlines (s : string) : string :=
  match s with
  | EmptyString => ""
  | String "013"%char (String "010"%char s') =>
      String "010"%char (universal_newlines s')
  | String "013"%char s' => String "010"%char (universal_newlines s')
  | String a s' => String a (universal_newlines s')
  end.

(** [s.rstrip(c)] for a one-character [c]. *)
Fixpoint rstrip (c : ascii) (s : string) : string :=
  match s with
  | EmptyString => ""
  | String a s' =>
      let r := rstrip c s' in
      if String.eqb r "" && Ascii.eqb a c then "" else String a r
  end.

(** [s[:s.rfind(c) + 1]] for a one-character [c]: the text up to and with
    the last [c], empty when there is none. *)
Fixpoint through_last (c : ascii) (s : string) : string :=
  match s with
  | EmptyString => ""
  | String a s' => if count c s =? 0 then "" else String a (through_last c s')
  end.

End Py.

(** ** [os.path] on POSIX ([posixpath]) *)

Module posixpath.

Definition sep_char : ascii := "/"%char.
Definition sep : string := String sep_char "".
Definition curdir : string := ".".
Definition pardir : string := "..".

(** [os.path.join(a, b)] *)
Definition join (a b : string) : string :=
  if Py.startswith sep b then b
  else if String.eqb a "" || Py.endswith sep a then a +:+ b
  else a +:+ sep +:+ b.

(** [os.path.basename(p)]: the text after the last separator,
    [p[p.rfind('/') + 1:]]. *)
Definition basename (p : string) : string :=
  List.last (Py.split sep_char p) "".

(** The number of leading slashes [normpath] keeps: POSIX allows one or
    two, three or more count as one. *)
Definition initial_slashes (path : string) : nat :=
  if Py.startswith sep path then
    if Py.startswith "//" path && negb (Py.startswith "///" path) then 2
    else 1
  else 0.

(** One turn of [normpath]'s loop over the components. *)
Definition norm_step (slashes : nat) (new_comps : list string)
    (comp : string) : list string :=
  if String.eqb comp "" || String.eqb comp curdir then new_comps
  else if negb (String.eqb comp pardir)
          || ((slashes =? 0) && bool_decide (new_comps = []))
          || bool_decide (List.last new_comps "" = pardir
                          /\ new_comps <> [])
       then new_comps ++ [comp]
       else removelast new_comps.

(** [normpath]'s loop: the components that remain. *)
Definition norm_comps (slashes : nat) (path : string) : list string :=
  fold_left (norm_step slashes) (Py.split sep_char path) [].

(** [os.path.normpath(path)] *)
Definition normpath (path : string) : string :=
  if String.eqb path "" then curdir
  else
    let slashes := initial_slashes path in
    let comps := norm_comps slashes path in
    let path := Py.repeat_str sep slashes +:+ Py.join sep comps in
    if String.eqb path "" then curdir else path.

(** What [abspath] normalises: the path itself when it is absolute, the
    path joined to the working directory otherwise. *)
Definition anchored (cwd path : string) : string :=
  if Py.startswith sep path then path else join cwd path.

(** [os.path.abspath(path)], with [os.getcwd()] passed in. *)
Definition abspath (cwd path : string) : string :=
  normpath (anchored cwd path).

(** Longest common prefix of two component lists
    ([os.path.commonprefix] on two lists). *)
Fixpoint commonprefix (l1 l2 : list string) : list string :=
  match l1, l2 with
  | x :: l1', y :: l2' =>
      if String.eqb x y then x :: commonprefix l1' l2' else []
  | _, _ => []
  end.

Definition components (tail : string) : list string :=
  if String.eqb tail "" then [] else Py.split sep_char tail.

(** [os.path.relpath(path, start)] for a non-empty [path]; the scripts
    only pass paths produced by [os.walk], which are never empty. *)
Definition relpath (cwd path start : string) : string :=
  let start_list := components (Py.lstrip sep_char (abspath cwd start)) in
  let path_list := components (Py.lstrip sep_char (abspath cwd path)) in
  let i := length (commonprefix start_list path_list) in
  let rel_list :=
    repeat pardir (length start_list - i) ++ drop i path_list in
  match rel_list with
  | [] => curdir
  | _ => Py.join sep rel_list
  end.

(** [os.path.dirname(p)] *)
Definition dirname (p : string) : string :=
  let head := Py.through_last sep_char p in
  if negb (String.eqb head "")
     && negb (String.eqb (Py.lstrip sep_char head) "")
  then Py.rstrip sep_char head
  else head.

End posixpath.

(** ** The filesystem as the scripts observe it *)

Module os.

(** A directory entry as [os.walk] classifies it.
    - [File]: anything [os.walk] lists among the non-directories;
    - [Dir]: a directory with its entries in the order [os.scandir]
      enumerates them;
    - [Opaque]: an entry listed among the directories that the walk
      yields nothing for: a symbolic link to a directory (the scripts
      leave [followlinks] at its default) or a directory whose listing
      fails (the scripts pass no [onerror]). *)
Inductive node : Type :=
| File : node
| Dir : list (string * node) -> node
| Opaque : node.

(** What one invocation observes: the working directory and, for a path,
    the node it resolves to (after following links), if any. *)
Record world : Type := World {
  getcwd : string;
  lookup : string -> option node
}.

(** The empty path never resolves. *)
Definition stat (w : world) (p : string) : option node :=
  if String.eqb p "" then None else lookup w p.

Definition path_exists (w : world) (p : string) : bool :=
  match stat w p with Some _ => true | None => false end.

Definition path_isdir (w : world) (p : string) : bool :=
  match stat w p with
  | Some (Dir _) | Some Opaque => true
  | _ => false
  end.

Definition is_file (n : node) : bool :=
  match n with File => true | _ => false end.

(** Names of the non-directory entries, in enumeration order. *)
Definition filenames (entries : list (string * node)) : list string :=
  map fst (List.filter (fun e => is_file (snd e)) entries).

(** Names of the directory entries, in enumeration order. *)
Definition dirnames (entries : list (string * node)) : list string :=
  map fst (List.filter (fun e => negb (is_file (snd e))) entries).

(** A name a directory entry can have: not empty, not [.] or [..], and
    without a separator. *)
Definition good_name (name : string) : bool :=
  negb (String.eqb name "") && negb (String.eqb name posixpath.curdir)
  && negb (String.eqb name posixpath.pardir)
  && (Py.count posixpath.sep_char name =? 0).

(** Every entry below [n] has such a name. *)
Fixpoint well_named (n : node) : bool :=
  match n with
  | Dir entries =>
      forallb (fun e => good_name (fst e) && well_named (snd e)) entries
  | File | Opaque => true
  end.

(** The path [os.walk] builds for the directory reached from [top]
    through the directories [names]. *)
Definition descend (top : string) (names : list string) : string :=
  fold_left posixpath.join names top.

(** For each directory of the walk, in its order, the names that lead to
    it from the top: none for the top itself, one for its children, two
    for its grandchildren. *)
Fixpoint chains (n : node) : list (list string) :=
  match n with
  | Dir entries =>
      [] :: flat_map (fun e => map (cons (fst e)) (chains (snd e))) entries
  | File | Opaque => []
  end.

(** One triple [(root, dirs, files)] yielded by [os.walk]. *)
Definition walk_entry : Type := string * list string * list string.

(** The walk of the node [n] found at [top], top-down: the directory
    itself, then the walk of each of its subdirectories in enumeration
    order.  Nothing is yielded for what cannot be listed. *)
Fixpoint walk_tree (top : string) (n : node) : list walk_entry :=
  match n with
  | Dir entries =>
      (top, dirnames entries, filenames entries) ::
      flat_map (fun e => walk_tree (posixpath.join top (fst e)) (snd e))
        entries
  | File | Opaque => []
  end.

(** [os.walk(top)] *)
Definition walk (w : world) (top : string) : list walk_entry :=
  match stat w top with
  | Some n => walk_tree top n
  | None => []
  end.

(** The non-directory entries a walk of [n] comes across: a directory
    counts those of its entries, what cannot be listed counts for
    nothing. *)
Fixpoint count_files (n : node) : nat :=
  match n with
  | File => 1
  | Dir entries => sum_list (map (fun e => count_files (snd e)) entries)
  | Opaque => 0
  end.


(** [n] without the entries that are listed among the directories but
    not walked into. *)
Fixpoint prune (n : node) : node :=
  match n with
  | Dir entries =>
      Dir (flat_map (fun e =>
                       match snd e with
                       | Opaque => []
                       | File | Dir _ => [(fst e, prune (snd e))]
                       end)
             entries)
  | File => File
  | Opaque => Opaque
  end.

End os.

(** ** [src/data/tree.py] *)

Module tree.

Definition indent_glyph : string := "│   ".
Definition branch_glyph : string := "├── ".

(** The two accumulators of [generate_directory_tree_text]. *)
Definition state : Type := list string * list string.

(** Line 18. *)
Definition root_marker : string := "." +:+ posixpath.sep.

(** Lines 20-21. *)
Definition dir_line (relative_root root : string) : string :=
  let indent_level := Py.count posixpath.sep_char relative_root in
  Py.repeat_str indent_glyph indent_level +:+ branch_glyph
    +:+ posixpath.basename root +:+ posixpath.sep.

(** Lines 27-28. *)
Definition file_line (relative_root file_name : string) : string :=
  let file_indent_level := Py.count posixpath.sep_char relative_root + 1 in
  Py.repeat_str indent_glyph file_indent_level +:+ branch_glyph
    +:+ file_name.

(** Lines 23-28: one turn of the inner loop. *)
Definition visit_file (root relative_root : string) (st : state)
    (file_name : string) : state :=
  let '(output_lines, found_files) := st in
  let full_file_path := posixpath.join root file_name in
  let found_files := found_files ++ [full_file_path] in
  (output_lines ++ [file_line relative_root file_name], found_files).

(** Lines 15-28: one turn of the outer loop. *)
Definition visit_dir (cwd start_path : string) (st : state)
    (e : os.walk_entry) : state :=
  let '(root, _, files) := e in
  let '(output_lines, found_files) := st in
  let relative_root := posixpath.relpath cwd root start_path in
  let output_lines :=
    if String.eqb relative_root "."
    then output_lines ++ [root_marker]
    else output_lines ++ [dir_line relative_root root] in
  fold_left (visit_file root relative_root) files
    (output_lines, found_files).

Definition header (cwd start_path : string) : string :=
  "Scanning directory tree from: " +:+ posixpath.abspath cwd start_path
    +:+ Py.nl.

Definition summary_header : string :=
  Py.nl +:+ "--- Summary: All Files Found (Full Paths) ---".

Definition total_line (n : nat) : string :=
  Py.nl +:+ "Total files found: " +:+ Py.str_of_nat n.

Definition no_files_line : string :=
  "No files found or an error occurred during scanning.".

(** Lines 30-36. *)
Definition summarize (st : state) : state :=
  let '(output_lines, found_files) := st in
  match found_files with
  | _ :: _ =>
      let output_lines := output_lines ++ [summary_header] in
      let output_lines :=
        fold_left (fun acc f_path => acc ++ [f_path]) found_files
          output_lines in
      (output_lines ++ [total_line (length found_files)], found_files)
  | [] => (output_lines ++ [no_files_line], found_files)
  end.

Definition error_text (start_path : string) : string :=
  "Error: The specified path does not exist: '" +:+ start_path +:+ "'"
    +:+ Py.nl.

(** Lines 11-36: the accumulated lines and the file list. *)
Definition scan (w : os.world) (start_path : string) : state :=
  let output_lines := [header (os.getcwd w) start_path] in
  let found_files := [] in
  summarize
    (fold_left (visit_dir (os.getcwd w) start_path)
       (os.walk w start_path) (output_lines, found_files)).

(** [generate_directory_tree_text(start_path)] *)
Definition generate_directory_tree_text (w : os.world)
    (start_path : string) : string * list string :=
  if negb (os.path_exists w start_path) then (error_text start_path, [])
  else
    let '(output_lines, found_files) := scan w start_path in
    (Py.join Py.nl output_lines, found_files).

(** *** The shape of the report *)

(** The files the walk visits, each with the directory it is in, in
    visitation order. *)
Definition visits (entries : list os.walk_entry) : list (string * string) :=
  flat_map (fun e : os.walk_entry =>
              let '(root, _, files) := e in map (pair root) files)
    entries.

(** The path line 25 stores for a visited file. *)
Definition visit_path (v : string * string) : string :=
  posixpath.join v.1 v.2.

(** The line line 28 renders for a visited file. *)
Definition visit_line (cwd start_path : string) (v : string * string)
    : string :=
  file_line (posixpath.relpath cwd v.1 start_path) v.2.

(** The line lines 17-21 render for a directory. *)
Definition head_line (cwd start_path : string) (e : os.walk_entry)
    : string :=
  let relative_root := posixpath.relpath cwd e.1.1 start_path in
  if String.eqb relative_root "." then root_marker
  else dir_line relative_root e.1.1.

(** The lines of one directory: its own, then one per file. *)
Definition entry_lines (cwd start_path : string) (e : os.walk_entry)
    : list string :=
  head_line cwd start_path e :: map (visit_line cwd start_path) (visits [e]).

(** The line of the directory that [names] lead to from the root: the
    marker for the root itself; below the root one indent glyph for each
    name but the last, then the branch glyph, the last name and a
    separator. *)
Definition depth_dir_line (names : list string) : string :=
  match names with
  | [] => "./"
  | _ :: _ =>
      Py.repeat_str indent_glyph (length names - 1)
        +:+ branch_glyph +:+ List.last names "" +:+ "/"
  end.

(** The line of a file of that directory: one indent glyph for each name,
    and one for a file of the root. *)
Definition depth_file_line (names : list string) (file_name : string)
    : string :=
  Py.repeat_str indent_glyph (Nat.max 1 (length names))
    +:+ branch_glyph +:+ file_name.

(** What the loop body does with the entry [e] of the walk when [names]
    lead to its directory from the root: the separators of the relative
    path are one less than the names, and the lines appended are those
    above. *)
Definition indented (cwd start_path : string) (e : os.walk_entry)
    (names : list string) : Prop :=
  e.1.1 = os.descend start_path names /\
  (names <> [] ->
   Py.count "/" (posixpath.relpath cwd e.1.1 start_path)
   = length names - 1) /\
  forall output_lines found_files : list string,
    visit_dir cwd start_path (output_lines, found_files) e
    = (output_lines
         ++ depth_dir_line names :: map (depth_file_line names) e.2,
       found_files ++ map (posixpath.join e.1.1) e.2).

(** The lines that close the report. *)
Definition summary_block (found_files : list string) : list string :=
  match found_files with
  | [] => [no_files_line]
  | _ :: _ =>
      [summary_header] ++ found_files
        ++ [total_line (length found_files)]
  end.

(** What the loop body reads of an entry of the walk: the directory and
    its files, not the names of its subdirectories. *)
Definition read_part (e : os.walk_entry) : string * list string :=
  (e.1.1, e.2).

End tree.

(** ** [src/update_imports.py] *)

Module update_imports.

(** *** The two uses of [re] *)

(** Both patterns of [PATTERNS] are made of ordinary characters and of
    backslash-escaped punctuation, so each matches exactly one literal
    text: the pattern with the escaping backslashes removed. *)
Fixpoint re_literal (pattern : string) : string :=
  match pattern with
  | EmptyString => ""
  | String "\"%char (String c rest) => String c (re_literal rest)
  | String c rest => String c (re_literal rest)
  end.

(** [strip_prefix lit s] is what follows [lit] when [s] starts with it. *)
Fixpoint strip_prefix (lit s : string) : option string :=
  match lit, s with
  | EmptyString, _ => Some s
  | String a lit', String b s' =>
      if Ascii.eqb a b then strip_prefix lit' s' else None
  | String _ _, EmptyString => None
  end.

(** Leftmost, non-overlapping replacement of a non-empty literal: at each
    position either the literal matches, and scanning resumes after it,
    or one character is copied.  [fuel] bounds the number of turns; the
    length of [s] is enough (lemma [sub_literal_fuel]). *)
Fixpoint sub_literal (fuel : nat) (lit repl s : string) : string :=
  match fuel with
  | 0 => s
  | S fuel' =>
      match strip_prefix lit s with
      | Some rest => repl +:+ sub_literal fuel' lit repl rest
      | None =>
          match s with
          | EmptyString => ""
          | String c s' => String c (sub_literal fuel' lit repl s')
          end
      end
  end.

Definition sub (lit repl s : string) : string :=
  sub_literal (String.length s) lit repl s.

(** [re.sub(pattern, repl, s)] for such a pattern and a replacement
    without backslashes. *)
Definition re_sub (pattern repl s : string) : string :=
  sub (re_literal pattern) repl s.

(** [s] starts with [lit]. *)
Definition starts (lit s : string) : bool :=
  match strip_prefix lit s with Some _ => true | None => false end.

(** [lit] occurs somewhere in [s]. *)
Fixpoint occurs (lit s : string) : bool :=
  starts lit s ||
  match s with
  | EmptyString => false
  | String _ s' => occurs lit s'
  end.

(** [a] and [b] differ at a position both have: neither is the start of
    the other, whatever follows. *)
Fixpoint clash (a b : string) : bool :=
  match a, b with
  | String x a', String y b' => if Ascii.eqb x y then clash a' b' else true
  | _, _ => false
  end.

(** [P] holds of every non-empty tail of [s]. *)
Fixpoint forall_suffix (P : string -> bool) (s : string) : bool :=
  match s with
  | EmptyString => true
  | String _ s' => P s && forall_suffix P s'
  end.

Definition ROOT_DIR : string := "src".

(** [PATTERNS], in insertion order, which is the order [items()] gives. *)
Definition PATTERNS : list (string * string) :=
  [ ("from '@\/", "from '#@/");
    ("require\('@\/", "require('#@/") ].

(** Lines 25-28. *)
Definition rewrite (content : string) : string :=
  fold_left (fun new_content '(old_path, new_path) =>
               re_sub old_path new_path new_content)
    PATTERNS content.

(** *** Files, effects and exceptions *)

Inductive error : Type :=
| FileNotFoundError
| PermissionError
| UnicodeDecodeError
| UnicodeEncodeError.

(** A stored file: its decoded text when its bytes are UTF-8, and whether
    it may be opened for reading and for writing. *)
Record file : Type := File {
  text : option string;
  r_ok : bool;
  w_ok : bool
}.

Inductive message : Type :=
| Updating (file_path : string)
| NoChanges (file_path : string)
| ErrorProcessing (file_path : string) (e : error)
| RootMissing
| Completed.

Inductive event : Type :=
| OpenRead (file_path : string)
| OpenWrite (file_path : string)
| Print (m : message).

(** What a run depends on besides the stored files:
    - [stdout m]: the exception [print] raises on the message [m], if it
      raises one (a terminal that cannot encode a file name, a closed
      pipe);
    - [realpath p]: the key of the stored file that the path [p] denotes,
      symbolic links followed;
    - [create k]: the exception raised when the missing file [k] is
      opened for writing, if it cannot be created. *)
Record env : Type := Env {
  stdout : message -> option error;
  realpath : string -> string;
  create : string -> option error
}.

(** Standard output takes every message, every path denotes the file
    stored under it, and a missing file can be created. *)
Definition plain : env :=
  Env (fun _ => None) (fun p => p) (fun _ => None).

(** A computation over the file store that logs its events and either
    returns or raises. *)
Definition io (A : Type) : Type :=
  gmap string file -> list event * gmap string file * (error + A).

Definition ret {A} (a : A) : io A := fun fs => ([], fs, inr a).

Definition bind {A B} (m : io A) (k : A -> io B) : io B :=
  fun fs =>
    match m fs with
    | (log, fs', inl e) => (log, fs', inl e)
    | (log, fs', inr a) =>
        let '(log', fs'', r) := k a fs' in (log ++ log', fs'', r)
    end.

(** [try: m except Exception as e: h e] *)
Definition try_except {A} (m : io A) (h : error -> io A) : io A :=
  fun fs =>
    match m fs with
    | (log, fs', inl e) =>
        let '(log', fs'', r) := h e fs' in (log ++ log', fs'', r)
    | returned => returned
    end.

Definition emit (ev : event) : io unit := fun fs => ([ev], fs, inr tt).

Definition raise {A} (e : error) : io A := fun fs => ([], fs, inl e).

(** [print(m)]: the message is logged unless standard output refuses
    it. *)
Definition print (E : env) (m : message) : io unit :=
  fun fs =>
    match stdout E m with
    | None => ([Print m], fs, inr tt)
    | Some e => raise e fs
    end.

#[global] Instance io_ret : MRet io := @ret.
#[global] Instance io_bind : MBind io := fun A B k m => bind m k.

(** Reading the text of an opened file: what can fail is the lookup of
    the file, the permission check and the UTF-8 decoding; the text comes
    with its line ends translated. *)
Definition load (E : env) (file_path : string) : io string :=
  fun fs =>
    match fs !! realpath E file_path with
    | None => raise FileNotFoundError fs
    | Some f =>
        if r_ok f then
          match text f with
          | Some s => ret (Py.universal_newlines s) fs
          | None => raise UnicodeDecodeError fs
          end
        else raise PermissionError fs
    end.

(** Replacing the text of a file with a text that encodes as UTF-8;
    opening a missing file for writing creates it when it can be
    created. *)
Definition store (E : env) (file_path s : string) : io unit :=
  fun fs =>
    let key := realpath E file_path in
    match fs !! key with
    | None =>
        match create E key with
        | None => ([], <[key := File (Some s) true true]> fs, inr tt)
        | Some e => raise e fs
        end
    | Some f =>
        if w_ok f
        then ([], <[key := File (Some s) (r_ok f) (w_ok f)]> fs, inr tt)
        else raise PermissionError fs
    end.

(** [with open(file_path, 'r', encoding='utf-8') as f: f.read()] *)
Definition read_text (E : env) (file_path : string) : io string :=
  emit (OpenRead file_path) ;; load E file_path.

(** [with open(file_path, 'w', encoding='utf-8') as f: f.write(s)], for a
    text [s] that was decoded from a file: encoding it cannot fail. *)
Definition write_text (E : env) (file_path s : string) : io unit :=
  emit (OpenWrite file_path) ;; store E file_path s.

(** [update_imports(file_path)] *)
Definition update_imports_in (E : env) (file_path : string) : io unit :=
  try_except
    (content ← read_text E file_path;
     let new_content := rewrite content in
     if negb (String.eqb new_content content) then
       print E (Updating file_path) ;;
       write_text E file_path new_content
     else
       print E (NoChanges file_path))
    (fun e => print E (ErrorProcessing file_path e)).

(** [update_imports(file_path)] in the plain environment. *)
Definition update_imports (file_path : string) : io unit :=
  update_imports_in plain file_path.

(** [for x in l: body x] *)
Fixpoint for_each {A} (l : list A) (body : A -> io unit) : io unit :=
  match l with
  | [] => ret tt
  | x :: l' => body x ;; for_each l' body
  end.

(** Lines 46-50. *)
Definition visit (E : env) (e : os.walk_entry) : io unit :=
  let '(root, _, files) := e in
  for_each files (fun file =>
    if Py.endswith ".js" file then
      let file_path := posixpath.join root file in
      update_imports_in E file_path
    else ret tt).

(** [main()] *)
Definition main_in (E : env) (w : os.world) : io unit :=
  if negb (os.path_isdir w ROOT_DIR) then print E RootMissing
  else
    for_each (os.walk w ROOT_DIR) (visit E) ;;
    print E Completed.

(** [main()] in the plain environment. *)
Definition main (w : os.world) : io unit := main_in plain w.

(** *** What a run leaves behind *)

Definition log_of {A} (x : list event * gmap string file * (error + A))
    : list event := x.1.1.
Definition store_of {A} (x : list event * gmap string file * (error + A))
    : gmap string file := x.1.2.
Definition result_of {A} (x : list event * gmap string file * (error + A))
    : error + A := x.2.

(** The paths opened for reading, in order. *)
Definition reads (log : list event) : list string :=
  omap (fun ev => match ev with OpenRead p => Some p | _ => None end) log.


(** The errors reported, each with the path it is reported for, in
    order. *)
Definition errors (log : list event) : list (string * error) :=
  omap (fun ev =>
          match ev with
          | Print (ErrorProcessing p e) => Some (p, e)
          | _ => None
          end)
    log.

(** What reading a stored file gives: its text with the line ends
    translated, when it may be read and decodes. *)
Definition read_of (f : file) : option string :=
  if r_ok f then Py.universal_newlines <$> text f else None.



(** The paths of the files below the walked directories whose name ends
    with [.js], in the order of the walk. *)
Definition js_files (entries : list os.walk_entry) : list string :=
  flat_map (fun e : os.walk_entry =>
              let '(root, _, files) := e in
              map (posixpath.join root)
                (List.filter (Py.endswith ".js") files))
    entries.

Definition from_lit : string := "from '@/".
Definition from_repl : string := "from '#@/".
Definition require_lit : string := "require('@/".
Definition require_repl : string := "require('#@/".

(** Whether the substitutions change what reading the file gives and the
    file may be written: then, and only then, [update_imports] asks to
    replace its text. *)
Definition stale (f : file) : bool :=
  match read_of f with
  | Some content => negb (String.eqb (rewrite content) content) && w_ok f
  | None => false
  end.

(** The file after [update_imports] replaced its text. *)
Definition rewritten (f : file) : file :=
  if stale f
  then File (rewrite <$> read_of f) (r_ok f) (w_ok f)
  else f.

(** Whether [update_imports] will replace the text of [file_path]: its
    file is stale and standard output takes the message that comes before
    the write. *)
Definition will_write (E : env) (fs : gmap string file)
    (file_path : string) : bool :=
  match fs !! realpath E file_path, stdout E (Updating file_path) with
  | Some f, None => stale f
  | _, _ => false
  end.

(** The error the body of [update_imports] ends with on a file, when
    standard output takes its messages: the file is missing, may not be
    read, does not decode, or its text changes and it may not be
    written. *)
Definition file_failure (o : option file) : option error :=
  match o with
  | None => Some FileNotFoundError
  | Some f =>
      if r_ok f then
        match text f with
        | None => Some UnicodeDecodeError
        | Some s =>
            let content := Py.universal_newlines s in
            if String.eqb (rewrite content) content then None
            else if w_ok f then None else Some PermissionError
        end
      else Some PermissionError
  end.

Definition failure (E : env) (fs : gmap string file) (file_path : string)
    : option error :=
  file_failure (fs !! realpath E file_path).

(** How a run of [update_imports] ends when its body raised [e] after
    [log]: the handler's message follows, unless standard output refuses
    it, and then its exception leaves the function. *)
Definition handled (E : env) (file_path : string) (log : list event)
    (e : error) (fs : gmap string file)
    : list event * gmap string file * (error + unit) :=
  match stdout E (ErrorProcessing file_path e) with
  | None => (log ++ [Print (ErrorProcessing file_path e)], fs, inr tt)
  | Some e' => (log, fs, inl e')
  end.

(** The store after [update_imports] ran on each of [paths], when each
    run could announce its write. *)
Definition settled (E : env) (paths : list string) (fs : gmap string file)
    : gmap string file :=
  fold_left (fun fs file_path => alter rewritten (realpath E file_path) fs)
    paths fs.

(** Standard output takes every message. *)
Definition accepting (E : env) : Prop := forall m, stdout E m = None.

(** [s] without the character [c]. *)
Fixpoint without (c : ascii) (s : string) : string :=
  match s with
  | EmptyString => ""
  | String a s' =>
      if Ascii.eqb a c then without c s' else String a (without c s')
  end.

End update_imports.

(** ** [src/data/tree.py], run as a script (lines 40-64) *)

Module tree_main.

Definition output_filename : string := "directory_tree_output.txt".

(** What the script prints. *)
Inductive printed : Type :=
| Saved (filename : string)
| ErrorSaving (e : update_imports.error)
| ConsoleHeader
| ConsoleText (output_text : string).

(** What a run of the script depends on besides the filesystem it scans
    and the stored files:
    - [stdout m]: the exception [print] raises on [m], if it raises one;
    - [realpath p]: the key of the stored file that the path [p] denotes,
      symbolic links followed;
    - [create k]: the exception raised when the missing file [k] is
      opened for writing, if it cannot be created;
    - [encodable s]: whether the text [s] encodes as UTF-8, which it does
      not when it holds a file name with a byte that is not UTF-8. *)
Record env : Type := Env {
  stdout : printed -> option update_imports.error;
  realpath : string -> string;
  create : string -> option update_imports.error;
  encodable : string -> bool
}.

(** Lines 44-47: the first argument when there is one, the directory of
    the script otherwise.  [argv] is [sys.argv] and [file] is [__file__]. *)
Definition target_path (argv : list string) (file : string) (w : os.world)
    : string :=
  match argv with
  | _ :: arg :: _ => arg
  | _ => posixpath.dirname (posixpath.abspath (os.getcwd w) file)
  end.

(** [open(output_filename, "w", encoding="utf-8")]: the file is created,
    or emptied when it is there and may be written. *)
Definition open_output (E : env) (fs : gmap string update_imports.file)
    : update_imports.error + gmap string update_imports.file :=
  let key := realpath E output_filename in
  match fs !! key with
  | None =>
      match create E key with
      | None => inr (<[key := update_imports.File (Some "") true true]> fs)
      | Some e => inl e
      end
  | Some f =>
      if update_imports.w_ok f
      then inr (<[key := update_imports.File (Some "")
                           (update_imports.r_ok f) (update_imports.w_ok f)]>
                  fs)
      else inl update_imports.PermissionError
  end.

(** [f.write(output_text)] on the opened file: the text is encoded before
    anything is written. *)
Definition write_output (E : env) (output_text : string)
    (fs : gmap string update_imports.file)
    : update_imports.error + gmap string update_imports.file :=
  if encodable E output_text then
    inr (alter (fun f => update_imports.File (Some output_text)
                           (update_imports.r_ok f) (update_imports.w_ok f))
           (realpath E output_filename) fs)
  else inl update_imports.UnicodeEncodeError.

(** [print(m)] after [log] was printed. *)
Definition print (E : env) (m : printed) (log : list printed)
    : list printed * (update_imports.error + unit) :=
  match stdout E m with
  | None => (log ++ [m], inr tt)
  | Some e => (log, inl e)
  end.

(** Lines 56-59: the body of the [try]. *)
Definition save (E : env) (output_text : string)
    (fs : gmap string update_imports.file)
    : list printed * gmap string update_imports.file
      * (update_imports.error + unit) :=
  match open_output E fs with
  | inl e => ([], fs, inl e)
  | inr opened =>
      match write_output E output_text opened with
      | inl e => ([], opened, inl e)
      | inr written =>
          let '(log, r) := print E (Saved output_filename) [] in
          (log, written, r)
      end
  end.

(** Lines 60-64: the handler; an exception raised by one of its prints
    leaves the script. *)
Definition console (E : env) (e : update_imports.error)
    (output_text : string) (log : list printed)
    : list printed * (update_imports.error + unit) :=
  match print E (ErrorSaving e) log with
  | (log1, inl e') => (log1, inl e')
  | (log1, inr _) =>
      match print E ConsoleHeader log1 with
      | (log2, inl e') => (log2, inl e')
      | (log2, inr _) => print E (ConsoleText output_text) log2
      end
  end.

(** Lines 49-64: the report is written to the output file; when that or
    the confirmation fails, the failure and then the report go to the
    console. *)
Definition script (E : env) (argv : list string) (file : string)
    (w : os.world) (fs : gmap string update_imports.file)
    : list printed * gmap string update_imports.file
      * (update_imports.error + unit) :=
  let '(output_text, _) :=
    tree.generate_directory_tree_text w (target_path argv file w) in
  match save E output_text fs with
  | (log, fs', inr _) => (log, fs', inr tt)
  | (log, fs', inl e) =>
      let '(log', r) := console E e output_text log in (log', fs', r)
  end.


End tree_main.

(** ** Sample filesystems *)

Module examples.

(** [root/sub/deep/file.txt] *)
Definition nested : os.node :=
  os.Dir [("sub", os.Dir [("deep", os.Dir [("file.txt", os.File)])])].

(** [/tmp/x] with [a.txt] and [sub/b.txt]. *)
Definition tmp_x : os.node :=
  os.Dir [("a.txt", os.File); ("sub", os.Dir [("b.txt", os.File)])].

(** A project: [src] with two scripts, a text file, a library directory
    and a linked directory. *)
Definition src : os.node :=
  os.Dir [("a.js", os.File); ("notes.txt", os.File);
          ("lib", os.Dir [("b.js", os.File); ("c.js", os.File)]);
          ("vendor", os.Opaque)].

(** A world run from [/home/u] where [root] is [nested], [/tmp/x] is
    [tmp_x], [empty] has nothing in it, [single] has the one file
    [a.txt], and [src] is the project. *)
Definition world : os.world :=
  os.World "/home/u"
    (fun p =>
       if String.eqb p "root" then Some nested
       else if String.eqb p "/tmp/x" then Some tmp_x
       else if String.eqb p "empty" then Some (os.Dir [])
       else if String.eqb p "single" then Some (os.Dir [("a.txt", os.File)])
       else if String.eqb p "src" then Some src
       else None).

(** The stored files of the project: [a.js] can be rewritten, [b.js] is
    read-only, [c.js] has gone missing. *)
Definition files : gmap string update_imports.file :=
  {[ "src/a.js" :=
       update_imports.File (Some "import x from '@/x'") true true;
     "src/lib/b.js" :=
       update_imports.File (Some "const y = require('@/y')") true false ]}.

(** A directory with a file, a linked directory and a directory that
    holds a file and another link. *)
Definition linked : os.node :=
  os.Dir [("a.txt", os.File); ("lnk", os.Opaque);
          ("sub", os.Dir [("b.txt", os.File); ("lnk2", os.Opaque)])].

(** A world where [notes.txt] is a file, [locked] a directory that cannot
    be listed and [proj] is [linked]. *)
Definition world_odd : os.world :=
  os.World "/home/u"
    (fun p =>
       if String.eqb p "notes.txt" then Some os.File
       else if String.eqb p "locked" then Some os.Opaque
       else if String.eqb p "proj" then Some linked
       else None).

(** The same, with the linked directories taken out of [proj]. *)
Definition world_pruned : os.world :=
  os.World "/home/u"
    (fun p => if String.eqb p "proj" then Some (os.prune linked) else None).

(** A store where the output file of the tree script cannot be written. *)
Definition files_locked : gmap string update_imports.file :=
  {[ "directory_tree_output.txt" :=
       update_imports.File (Some "old report") true false ]}.

(** A store with an old report and a file to keep. *)
Definition files_kept : gmap string update_imports.file :=
  {[ "directory_tree_output.txt" :=
       update_imports.File (Some "old report") true true;
     "keep.txt" := update_imports.File (Some "precious") true true ]}.

(** A file name whose first byte is not UTF-8. *)
Definition odd_name : string := String "255" ".js".

(** A project whose first script has such a name. *)
Definition src_names : os.node :=
  os.Dir [(odd_name, os.File); ("b.js", os.File)].

Definition world_names : os.world :=
  os.World "/home/u"
    (fun p =>
       if String.eqb p "src" then Some src_names
       else if String.eqb p "odd" then Some (os.Dir [(odd_name, os.File)])
       else None).




(** [src/l.js] is a link to [outside.txt]. *)
Definition with_link : update_imports.env :=
  update_imports.Env (fun _ => None)
    (fun p => if String.eqb p "src/l.js" then "outside.txt" else p)
    (fun _ => None).

Definition files_outside : gmap string update_imports.file :=
  {[ "outside.txt" :=
       update_imports.File (Some "import x from '@/x'") true true ]}.

(** A script with Windows line ends, and one without a pattern. *)
Definition crlf : string := String "013" (String "010" "").

Definition files_crlf : gmap string update_imports.file :=
  {[ "src/a.js" :=
       update_imports.File
         (Some ("import x from '@/x'" +:+ crlf +:+ "x()" +:+ crlf))
         true true;
     "src/lib/b.js" :=
       update_imports.File (Some ("const y = 1" +:+ crlf)) true true ]}.

(** The surroundings of the tree script when nothing gets in its way. *)
Definition console : tree_main.env :=
  tree_main.Env (fun _ => None) (fun p => p) (fun _ => None)
    (fun _ => true).

(** The same where [directory_tree_output.txt] is a link to [keep.txt]. *)
Definition console_link : tree_main.env :=
  tree_main.Env (fun _ => None)
    (fun p =>
       if String.eqb p "directory_tree_output.txt" then "keep.txt" else p)
    (fun _ => None) (fun _ => true).

(** The same where the script runs in a directory that is read-only, and
    where a text with the byte 255 does not encode. *)
Definition console_strict : tree_main.env :=
  tree_main.Env (fun _ => None) (fun p => p)
    (fun _ => Some update_imports.PermissionError)
    (fun s => negb (Py.contains "255" s)).

End examples.

(** * Properties *)

(** ** Strings *)

Section strings.

Lemma append_cons (a : ascii) (s t : string) :
  String a s +:+ t = String a (s +:+ t).
Proof. reflexivity. Qed.

Lemma append_nil_l (s : string) : "" +:+ s = s.
Proof. reflexivity. Qed.

Lemma append_nil_r (s : string) : s +:+ "" = s.
Proof. induction s as [|a s IH]; [done|]. by rewrite append_cons, IH. Qed.

Lemma append_assoc (s t u : string) : (s +:+ t) +:+ u = s +:+ (t +:+ u).
Proof.
  induction s as [|a s IH]; [done|]. by rewrite !append_cons, IH.
Qed.

Lemma append_length (s t : string) :
  String.length (s +:+ t) = String.length s + String.length t.
Proof.
  induction s as [|a s IH]; [done|]. rewrite append_cons. simpl. by rewrite IH.
Qed.

Lemma append_nonempty_r (s t : string) : t <> "" -> s +:+ t <> "".
Proof.
  intros Ht Hs. apply (f_equal String.length) in Hs.
  rewrite append_length in Hs. destruct t; [done|]. simpl in Hs. lia.
Qed.

Lemma count_app (c : ascii) (s t : string) :
  Py.count c (s +:+ t) = Py.count c s + Py.count c t.
Proof.
  induction s as [|a s IH]; [done|]. rewrite append_cons. simpl.
  rewrite IH. lia.
Qed.

Lemma startswith_cons (a b : ascii) (s : string) :
  Py.startswith (String a "") (String b s) = Ascii.eqb a b.
Proof.
  unfold Py.startswith. simpl.
  destruct (Ascii.eqb_spec a b) as [->|Hne].
  - destruct (ascii_dec b b); [|done]. by destruct s.
  - by destruct (ascii_dec a b).
Qed.

Lemma startswith_app (a : ascii) (s t : string) :
  s <> "" ->
  Py.startswith (String a "") (s +:+ t) = Py.startswith (String a "") s.
Proof.
  destruct s as [|b s]; [done|]. intros _.
  by rewrite append_cons, !startswith_cons.
Qed.

Lemma endswith_true (p s : string) :
  Py.endswith p s = true <-> exists pre, s = pre +:+ p.
Proof.
  induction s as [|a s IH]; simpl.
  - rewrite orb_false_r, String.eqb_eq. split.
    + intros ->. by exists "".
    + intros [[|b pre] H]; [done|by rewrite append_cons in H].
  - rewrite orb_true_iff, String.eqb_eq, IH. split.
    + intros [->|[pre ->]]; [by exists ""|].
      exists (String a pre). by rewrite append_cons.
    + intros [[|b pre] H]; [by left|]. right.
      rewrite append_cons in H. injection H as -> ->. by exists pre.
Qed.

Lemma endswith_app (a : ascii) (s t : string) :
  t <> "" ->
  Py.endswith (String a "") (s +:+ t) = Py.endswith (String a "") t.
Proof.
  intros Ht. induction s as [|b s IH]; [done|].
  rewrite append_cons. cbn [Py.endswith]. rewrite IH.
  destruct (String.eqb_spec (String a "") (String b (s +:+ t)))
    as [Heq|_]; [|done].
  injection Heq as _ Heq. symmetry in Heq. by apply append_nonempty_r in Heq.
Qed.

(** *** Splitting and joining at a separator *)

Lemma split_nonempty (c : ascii) (s : string) : Py.split c s <> [].
Proof.
  induction s as [|a s IH]; [done|]. simpl.
  destruct (Ascii.eqb a c); [done|]. by destruct (Py.split c s).
Qed.

Lemma split_free (c : ascii) (s : string) :
  Py.count c s = 0 -> Py.split c s = [s].
Proof.
  induction s as [|a s IH]; [done|]. simpl.
  destruct (Ascii.eqb a c); [done|]. intros H. by rewrite IH.
Qed.

Lemma split_parts_free (c : ascii) (s : string) :
  Forall (fun x => Py.count c x = 0) (Py.split c s).
Proof.
  induction s as [|a s IH]; simpl.
  - by constructor.
  - destruct (Ascii.eqb a c) eqn:Hac; [by constructor|].
    destruct (Py.split c s) as [|x xs]; [by constructor; [simpl; rewrite Hac|]|].
    inversion IH; subst. constructor; [|done]. simpl. by rewrite Hac.
Qed.

(** Text without the separator, then the separator: one more part at the
    front. *)
Lemma split_app_l (c : ascii) (x r : string) :
  Py.count c x = 0 ->
  Py.split c (x +:+ String c "" +:+ r) = x :: Py.split c r.
Proof.
  induction x as [|a x IH]; cbn [Py.count].
  - intros _. rewrite append_nil_l, append_cons, append_nil_l. cbn [Py.split].
    by rewrite Ascii.eqb_refl.
  - destruct (Ascii.eqb a c) eqn:Hac; [done|]. intros H.
    rewrite append_cons. cbn [Py.split]. by rewrite Hac, IH.
Qed.

(** The separator, then text without it: one more part at the back. *)
Lemma split_app_r (c : ascii) (p n : string) :
  Py.count c n = 0 ->
  Py.split c (p +:+ String c "" +:+ n) = Py.split c p ++ [n].
Proof.
  intros Hn. induction p as [|a p IH].
  - rewrite append_nil_l, append_cons, append_nil_l. cbn [Py.split].
    by rewrite Ascii.eqb_refl, split_free.
  - rewrite append_cons. cbn [Py.split app]. rewrite IH.
    destruct (Ascii.eqb a c); [done|].
    pose proof (split_nonempty c p). by destruct (Py.split c p).
Qed.

Lemma join_cons (sep x y : string) (l : list string) :
  Py.join sep (x :: y :: l) = x +:+ sep +:+ Py.join sep (y :: l).
Proof. reflexivity. Qed.


Lemma split_join (c : ascii) (l : list string) :
  l <> [] -> Forall (fun x => Py.count c x = 0) l ->
  Py.split c (Py.join (String c "") l) = l.
Proof.
  intros Hl. induction l as [|x l IH]; [done|]. intros Hfree.
  inversion Hfree as [|? ? Hx Hfree']; subst.
  destruct l as [|y l]; [by apply split_free|].
  by rewrite join_cons, split_app_l, IH.
Qed.

Lemma count_join (c : ascii) (l : list string) :
  Forall (fun x => Py.count c x = 0) l ->
  Py.count c (Py.join (String c "") l) = length l - 1.
Proof.
  induction l as [|x l IH]; [done|]. intros Hfree.
  inversion Hfree as [|? ? Hx Hfree']; subst.
  destruct l as [|y l]; [done|].
  rewrite join_cons, !count_app, IH, Hx by done. cbn [Py.count length].
  rewrite Ascii.eqb_refl. lia.
Qed.

Lemma lstrip_free (c : ascii) (s : string) :
  Py.startswith (String c "") s = false -> Py.lstrip c s = s.
Proof.
  destruct s as [|a s]; [done|]. rewrite startswith_cons. simpl.
  rewrite (Ascii.eqb_sym a c). by intros ->.
Qed.

Lemma lstrip_repeat (c : ascii) (k : nat) (s : string) :
  Py.lstrip c (Py.repeat_str (String c "") k +:+ s) = Py.lstrip c s.
Proof.
  induction k as [|k IH]; [done|]. cbn [Py.repeat_str].
  rewrite !append_cons, append_nil_l. cbn [Py.lstrip].
  by rewrite Ascii.eqb_refl.
Qed.

End strings.

(** ** Paths *)

Section paths.

Import posixpath.

Lemma good_name_spec (name : string) :
  os.good_name name = true ->
  name <> "" /\ name <> curdir /\ name <> pardir /\
  Py.count sep_char name = 0.
Proof.
  unfold os.good_name. rewrite !andb_true_iff, !negb_true_iff.
  rewrite !String.eqb_neq, Nat.eqb_eq. tauto.
Qed.

Lemma good_name_relative (name : string) :
  os.good_name name = true -> Py.startswith sep name = false.
Proof.
  intros (Hne & _ & _ & Hfree)%good_name_spec.
  destruct name as [|a name]; [done|]. unfold sep, sep_char in *.
  rewrite startswith_cons. cbn [Py.count] in Hfree.
  rewrite Ascii.eqb_sym. by destruct (Ascii.eqb a "/").
Qed.

(** Joining a name to a path puts one separator between them; a path
    that ends with one brings it. *)
Lemma join_shape (p name : string) :
  p <> "" -> os.good_name name = true ->
  exists p0, join p name = p0 +:+ sep +:+ name /\
             (p = p0 \/ p = p0 +:+ sep).
Proof.
  intros Hp Hname. unfold join.
  rewrite (good_name_relative _ Hname).
  destruct (String.eqb_spec p "") as [|_]; [done|]. cbn [orb].
  destruct (Py.endswith sep p) eqn:Hend.
  - apply endswith_true in Hend as [p0 ->]. exists p0.
    split; [by rewrite append_assoc | by right].
  - exists p. by split; [|left].
Qed.

Lemma join_nonempty (p name : string) :
  os.good_name name = true -> join p name <> "".
Proof.
  intros Hname. pose proof (good_name_relative _ Hname) as Hrel.
  apply good_name_spec in Hname as (Hne & _).
  unfold join. rewrite Hrel.
  destruct (_ || _); repeat apply append_nonempty_r; done.
Qed.

Lemma descend_nonempty (top : string) (names : list string) :
  top <> "" -> Forall (fun x => os.good_name x = true) names ->
  os.descend top names <> "".
Proof.
  revert top. induction names as [|name names IH]; intros top Htop Hnames;
    [done|].
  inversion Hnames; subst. apply IH; [|done]. by apply join_nonempty.
Qed.

Lemma descend_snoc (top : string) (names : list string) (name : string) :
  os.descend top (names ++ [name]) = join (os.descend top names) name.
Proof. unfold os.descend. by rewrite fold_left_app. Qed.

(** *** Normalisation *)

Lemma norm_step_name (slashes : nat) (comps : list string)
    (name : string) :
  os.good_name name = true ->
  norm_step slashes comps name = comps ++ [name].
Proof.
  intros (Hne & Hcur & Hpar & _)%good_name_spec. unfold norm_step.
  apply String.eqb_neq in Hne, Hcur, Hpar. by rewrite Hne, Hcur, Hpar.
Qed.

(** Only whether there are leading slashes matters, not how many. *)
Lemma norm_comps_slashes (slashes : nat) (path : string) :
  slashes <> 0 -> norm_comps slashes path = norm_comps 1 path.
Proof.
  intros Hs. unfold norm_comps. generalize (@nil string).
  induction (Py.split sep_char path) as [|comp comps IH]; intros acc;
    [done|].
  cbn [fold_left]. rewrite IH.
  assert (norm_step slashes acc comp = norm_step 1 acc comp) as ->; [|done].
  unfold norm_step. by destruct slashes.
Qed.

Lemma norm_comps_join (slashes : nat) (p name : string) :
  p <> "" -> os.good_name name = true ->
  norm_comps slashes (join p name) = norm_comps slashes p ++ [name].
Proof.
  intros Hp Hname. destruct (join_shape p name Hp Hname) as (p0 & -> & Hp0).
  pose proof (good_name_spec _ Hname) as (_ & _ & _ & Hfree).
  unfold norm_comps. unfold sep in Hp0 |- *. rewrite split_app_r by done.
  rewrite fold_left_app. cbn [fold_left].
  rewrite norm_step_name by done. f_equal.
  destruct Hp0 as [->| ->]; [done|].
  replace (p0 +:+ String sep_char "")
    with (p0 +:+ String sep_char "" +:+ "") by by rewrite append_nil_r.
  rewrite split_app_r by done. by rewrite fold_left_app.
Qed.

Lemma norm_comps_descend (slashes : nat) (top : string)
    (names : list string) :
  top <> "" -> Forall (fun x => os.good_name x = true) names ->
  norm_comps slashes (os.descend top names)
  = norm_comps slashes top ++ names.
Proof.
  intros Htop. induction names as [|name names IH] using rev_ind;
    intros Hnames.
  - by rewrite (right_id_L [] (++)).
  - apply Forall_app in Hnames as [Hnames Hname].
    inversion Hname; subst.
    rewrite descend_snoc, norm_comps_join, IH, (assoc_L (++)); try done.
    by apply descend_nonempty.
Qed.

(** The components that remain are not empty and have no separator. *)
Lemma norm_comps_parts (slashes : nat) (path : string) :
  Forall (fun x => x <> "" /\ Py.count sep_char x = 0)
    (norm_comps slashes path).
Proof.
  unfold norm_comps.
  assert (Forall (fun x => x <> "" /\ Py.count sep_char x = 0) [])
    as Hacc by constructor.
  revert Hacc. generalize (@nil string).
  pose proof (split_parts_free sep_char path) as Hparts.
  induction Hparts as [|comp comps Hcomp _ IH]; intros acc Hacc; [done|].
  cbn [fold_left]. apply IH. unfold norm_step.
  destruct (String.eqb_spec comp "") as [|Hne]; [done|]. cbn [orb].
  destruct (String.eqb comp curdir); [done|].
  destruct (_ || _).
  - apply Forall_app. split; [done|]. by repeat constructor.
  - clear -Hacc. induction Hacc as [|x [|y l] Hx Hl IHl]; cbn; try done.
    constructor; [done|]. apply IHl.
Qed.

(** *** Absolute paths *)

Lemma startswith_sep_app (s t : string) :
  s <> "" -> Py.startswith sep (s +:+ t) = Py.startswith sep s.
Proof. apply startswith_app. Qed.

Lemma startswith_sep_cons (a : ascii) (s : string) :
  Py.startswith sep (String a s) = Ascii.eqb sep_char a.
Proof. apply startswith_cons. Qed.

Lemma lstrip_sep_repeat (k : nat) (s : string) :
  Py.lstrip sep_char (Py.repeat_str sep k +:+ s) = Py.lstrip sep_char s.
Proof. apply lstrip_repeat. Qed.

Lemma startswith_join (p name : string) :
  p <> "" -> os.good_name name = true ->
  Py.startswith sep (join p name) = Py.startswith sep p.
Proof.
  intros Hp Hname. unfold join. rewrite (good_name_relative _ Hname).
  destruct (_ || _); by apply startswith_app.
Qed.

Lemma join_relative_r (a b : string) :
  Py.startswith sep b = false ->
  join a b = if String.eqb a "" || Py.endswith sep a then a +:+ b
             else a +:+ sep +:+ b.
Proof. intros Hb. unfold join. by rewrite Hb. Qed.

Lemma join_join (cwd p name : string) :
  p <> "" -> Py.startswith sep p = false -> os.good_name name = true ->
  join cwd (join p name) = join (join cwd p) name.
Proof.
  intros Hp Hrel Hname.
  pose proof (startswith_join p name Hp Hname) as Hrel'.
  rewrite Hrel in Hrel'. pose proof (good_name_relative _ Hname) as Hn.
  rewrite (join_relative_r cwd (join p name) Hrel').
  rewrite (join_relative_r (join cwd p) name Hn).
  rewrite (join_relative_r cwd p Hrel), (join_relative_r p name Hn).
  destruct (String.eqb_spec p "") as [|_]; [done|]. cbn [orb].
  assert (forall x, String.eqb (x +:+ p) "" = false) as Hx.
  { intros x. apply String.eqb_neq. by apply append_nonempty_r. }
  assert (forall x, Py.endswith sep (x +:+ p) = Py.endswith sep p) as He.
  { intros x. by apply endswith_app. }
  destruct (String.eqb cwd "" || Py.endswith sep cwd).
  - rewrite Hx, He. cbn [orb].
    destruct (Py.endswith sep p); by rewrite !append_assoc.
  - rewrite <- (append_assoc cwd sep p), Hx, He. cbn [orb].
    destruct (Py.endswith sep p); by rewrite !append_assoc.
Qed.

Lemma anchored_join (cwd p name : string) :
  p <> "" -> os.good_name name = true ->
  anchored cwd (join p name) = join (anchored cwd p) name.
Proof.
  intros Hp Hname. unfold anchored. rewrite startswith_join by done.
  destruct (Py.startswith sep p) eqn:Hrel; [done|]. by apply join_join.
Qed.

Lemma anchored_descend (cwd top : string) (names : list string) :
  top <> "" -> Forall (fun x => os.good_name x = true) names ->
  anchored cwd (os.descend top names)
  = os.descend (anchored cwd top) names.
Proof.
  intros Htop. induction names as [|name names IH] using rev_ind;
    intros Hnames; [done|].
  apply Forall_app in Hnames as [Hnames Hname]. inversion Hname; subst.
  rewrite !descend_snoc, anchored_join, IH; try done.
  by apply descend_nonempty.
Qed.

Lemma anchored_absolute (cwd p : string) :
  Py.startswith sep cwd = true -> Py.startswith sep (anchored cwd p) = true.
Proof.
  intros Hcwd. unfold anchored.
  destruct (Py.startswith sep p) eqn:Hp; [done|]. unfold join. rewrite Hp.
  assert (cwd <> "") by (by intros ->).
  destruct (_ || _); by rewrite startswith_sep_app.
Qed.

Lemma initial_slashes_absolute (q : string) :
  Py.startswith sep q = true -> initial_slashes q <> 0.
Proof.
  intros Hq. unfold initial_slashes. rewrite Hq. by destruct (_ && _).
Qed.

Lemma join_relative (comps : list string) :
  Forall (fun x => x <> "" /\ Py.count sep_char x = 0) comps ->
  Py.startswith sep (Py.join sep comps) = false.
Proof.
  intros Hcomps. destruct Hcomps as [|x comps [Hne Hfree] _]; [done|].
  assert (Py.startswith sep x = false) as Hx.
  { destruct x as [|a x]; [done|]. rewrite startswith_sep_cons.
    cbn [Py.count] in Hfree. rewrite Ascii.eqb_sym.
    by destruct (Ascii.eqb a sep_char). }
  destruct comps as [|y comps]; [done|].
  by rewrite join_cons, startswith_sep_app.
Qed.

(** The components [relpath] compares, for a path under an absolute
    working directory: what [normpath] kept. *)
Lemma components_abspath (cwd p : string) :
  Py.startswith sep cwd = true ->
  components (Py.lstrip sep_char (abspath cwd p))
  = norm_comps 1 (anchored cwd p).
Proof.
  intros Hcwd. pose proof (anchored_absolute cwd p Hcwd) as Habs.
  pose proof (initial_slashes_absolute _ Habs) as Hslashes.
  unfold abspath, normpath. set (q := anchored cwd p) in *.
  destruct (String.eqb_spec q "") as [Hq|_]; [by rewrite Hq in Habs|].
  cbn zeta. rewrite (norm_comps_slashes _ q Hslashes).
  pose proof (norm_comps_parts 1 q) as Hparts.
  set (comps := norm_comps 1 q) in *.
  destruct (String.eqb_spec
              (Py.repeat_str sep (initial_slashes q) +:+ Py.join sep comps)
              "") as [Hempty|_].
  { destruct (initial_slashes q); [done|]. by destruct comps. }
  rewrite lstrip_sep_repeat.
  rewrite lstrip_free by by apply join_relative.
  unfold components. destruct Hparts as [|x comps' [Hne Hfree] Hparts];
    [done|].
  assert (Py.join sep (x :: comps') <> "") as Hjoin.
  { destruct comps'; [done|]. rewrite join_cons. by destruct x. }
  apply String.eqb_neq in Hjoin. rewrite Hjoin.
  apply split_join; [done|]. constructor; [done|].
  eapply Forall_impl; [exact Hparts|]. by intros ? [_ ?].
Qed.

Lemma commonprefix_app (l1 l2 : list string) :
  commonprefix l1 (l1 ++ l2) = l1.
Proof.
  induction l1 as [|x l1 IH]; [by destruct l2|]. cbn.
  by rewrite String.eqb_refl, IH.
Qed.

(** [relpath] of a path to itself. *)
Lemma relpath_self (cwd p : string) : relpath cwd p p = curdir.
Proof.
  unfold relpath.
  set (l := components (Py.lstrip sep_char (abspath cwd p))).
  pose proof (commonprefix_app l []) as Hl.
  rewrite (right_id_L [] (++)) in Hl. rewrite Hl.
  by rewrite Nat.sub_diag, drop_all.
Qed.

(** [relpath] of a directory of the walk to the top: the names that lead
    to it. *)
Lemma relpath_descend (cwd top : string) (names : list string) :
  Py.startswith sep cwd = true -> top <> "" ->
  Forall (fun x => os.good_name x = true) names ->
  relpath cwd (os.descend top names) top
  = match names with [] => curdir | _ :: _ => Py.join sep names end.
Proof.
  intros Hcwd Htop Hnames. unfold relpath.
  rewrite !components_abspath by done.
  rewrite anchored_descend, norm_comps_descend by
    (try done; pose proof (anchored_absolute cwd top Hcwd);
     by intros Heq; rewrite Heq in *).
  rewrite commonprefix_app, Nat.sub_diag, drop_app_length.
  cbn [repeat]. by destruct names.
Qed.

Lemma basename_descend (top : string) (names : list string)
    (name : string) :
  top <> "" -> Forall (fun x => os.good_name x = true) names ->
  os.good_name name = true ->
  basename (os.descend top (names ++ [name])) = name.
Proof.
  intros Htop Hnames Hname. rewrite descend_snoc.
  pose proof (descend_nonempty top names Htop Hnames) as Hp.
  destruct (join_shape _ name Hp Hname) as (p0 & -> & _).
  apply good_name_spec in Hname as (_ & _ & _ & Hfree).
  unfold basename, sep. rewrite split_app_r by done. apply last_last.
Qed.

End paths.

(** ** The import rewriter: literal substitution *)

Section substitution.

Import update_imports.

Lemma strip_prefix_app (lit s rest : string) :
  strip_prefix lit s = Some rest <-> s = lit +:+ rest.
Proof.
  revert s. induction lit as [|a lit IH]; intros s; simpl.
  - rewrite append_nil_l. split; [by intros [= ->] | by intros ->].
  - destruct s as [|b s]; [by rewrite append_cons|].
    rewrite append_cons. destruct (Ascii.eqb_spec a b) as [->|Hne].
    + rewrite IH. split; [by intros -> | by intros [= ->]].
    + split; [done | by intros [= <- _]].
Qed.

Lemma strip_prefix_length (lit s rest : string) :
  strip_prefix lit s = Some rest ->
  String.length s = String.length lit + String.length rest.
Proof. intros ->%strip_prefix_app. apply append_length. Qed.

(** The literal text of the two patterns is not empty, and then the
    length of the subject is fuel enough. *)
Lemma sub_literal_fuel (lit repl : string) :
  lit <> "" ->
  forall fuel fuel' s,
    String.length s <= fuel -> String.length s <= fuel' ->
    sub_literal fuel lit repl s = sub_literal fuel' lit repl s.
Proof.
  intros Hlit. induction fuel as [|fuel IH]; intros fuel' s H1 H2.
  - destruct s; [|simpl in H1; lia].
    destruct fuel'; [done|]. simpl. by destruct lit.
  - destruct fuel' as [|fuel'].
    { destruct s; [|simpl in H2; lia]. simpl. by destruct lit. }
    simpl. destruct (strip_prefix lit s) as [rest|] eqn:Hs.
    + apply strip_prefix_length in Hs.
      assert (0 < String.length lit) by (destruct lit; [done|simpl; lia]).
      f_equal. apply IH; lia.
    + destruct s as [|c s]; [done|]. simpl in H1, H2.
      f_equal. apply IH; lia.
Qed.

(** The defining equation of substitution with the intended fuel. *)
Lemma sub_unfold (lit repl s : string) :
  lit <> "" ->
  sub lit repl s =
    match strip_prefix lit s with
    | Some rest => repl +:+ sub lit repl rest
    | None =>
        match s with
        | EmptyString => ""
        | String c s' => String c (sub lit repl s')
        end
    end.
Proof.
  intros Hlit. unfold sub. destruct s as [|c s].
  - simpl. by destruct lit.
  - change (String.length (String c s)) with (S (String.length s)).
    cbn [sub_literal].
    destruct (strip_prefix lit (String c s)) as [rest|] eqn:Hs; [|done].
    apply strip_prefix_length in Hs. simpl in Hs.
    assert (0 < String.length lit) by (destruct lit; [done|simpl; lia]).
    f_equal. apply sub_literal_fuel; [done|lia|lia].
Qed.

Lemma starts_cons (a b : ascii) (lit s : string) :
  starts (String a lit) (String b s) = Ascii.eqb a b && starts lit s.
Proof. unfold starts. simpl. by destruct (Ascii.eqb a b). Qed.

Lemma clash_sym (a b : string) : clash a b = clash b a.
Proof.
  revert b. induction a as [|x a IH]; intros [|y b]; simpl; try done.
  rewrite (Ascii.eqb_sym y x). destruct (Ascii.eqb x y); auto.
Qed.

(** Clashing texts do not start one another, whatever follows. *)
Lemma clash_starts (a b t : string) :
  clash a b = true -> starts a (b +:+ t) = false.
Proof.
  revert b. induction a as [|x a IH]; intros [|y b]; simpl; try done.
  rewrite append_cons, starts_cons.
  destruct (Ascii.eqb x y); [|done]. simpl. apply IH.
Qed.

Lemma forall_suffix_app (P : string -> bool) (s t : string) :
  forall_suffix P (s +:+ t) = true -> forall_suffix P t = true.
Proof.
  induction s as [|a s IH]; [done|]. rewrite append_cons. simpl.
  intros [_ H]%andb_true_iff. auto.
Qed.

Section one_pattern.

(** [q] is the text looked for after [p] was replaced by [r]. *)
Variables q p r : string.
Hypothesis q_nonempty : q <> "".
Hypothesis p_nonempty : p <> "".
(** No tail of the replacement starts [q] or is started by it. *)
Hypothesis r_tails : forall_suffix (fun v => clash v q) r = true.
(** No tail of [q] starts the replacement or is started by it. *)
Hypothesis q_tails : forall_suffix (fun u => clash u r) q = true.

(** A tail of [q] at the head of the output was at the head of the
    input, and no replacement took place there. *)
Lemma starts_sub_tail (u s : string) :
  forall_suffix (fun u => clash u r) u = true ->
  u <> "" ->
  starts u (sub p r s) = true ->
  starts u s = true /\ strip_prefix p s = None.
Proof.
  revert u. induction s as [|c s IH]; intros u Hu Hne.
  - rewrite sub_unfold by done. destruct u; [done|].
    destruct (strip_prefix p "") eqn:Hp; [|done].
    apply strip_prefix_app in Hp. destruct p; [done|].
    by rewrite append_cons in Hp.
  - rewrite sub_unfold by done.
    destruct u as [|a u]; [done|]. cbn [forall_suffix] in Hu.
    apply andb_true_iff in Hu as [Hclash Hu].
    destruct (strip_prefix p (String c s)) as [rest|] eqn:Hp.
    + by rewrite (clash_starts _ _ _ Hclash).
    + rewrite !starts_cons. intros [Hac Hs]%andb_true_iff.
      rewrite Hac. simpl. split; [|done].
      destruct u as [|b u]; [done|].
      by apply (IH (String b u)).
Qed.

(** Putting the replacement in front of a text free of [q] leaves it
    free of [q]. *)
Lemma occurs_repl (t : string) :
  occurs q t = false -> occurs q (r +:+ t) = false.
Proof.
  intros Ht. revert r_tails. clear q_tails.
  induction r as [|c v IH]; [done|]. cbn [forall_suffix].
  intros [Hclash Hv]%andb_true_iff. rewrite append_cons. cbn [occurs].
  rewrite <- append_cons, clash_starts by (by rewrite clash_sym).
  simpl. auto.
Qed.

(** When every occurrence of [q] in [s] is an occurrence of [p], the
    output of the substitution is free of [q]. *)
Lemma occurs_sub (s : string) :
  forall_suffix (fun t => implb (starts q t) (starts p t)) s = true ->
  occurs q (sub p r s) = false.
Proof.
  remember (String.length s) as n eqn:Hn. revert s Hn.
  induction n as [n IH] using lt_wf_ind. intros s -> Hs.
  rewrite sub_unfold by done.
  destruct (strip_prefix p s) as [rest|] eqn:Hp.
  - pose proof (strip_prefix_length _ _ _ Hp) as Hlen.
    apply strip_prefix_app in Hp. subst s.
    assert (0 < String.length p) by (destruct p; [done|simpl; lia]).
    apply occurs_repl, (IH (String.length rest)); [lia|done|].
    by apply forall_suffix_app in Hs.
  - destruct s as [|c s].
    + simpl. destruct q; done.
    + simpl in Hs. apply andb_true_iff in Hs as [Hhead Hs].
      simpl. apply orb_false_iff. split.
      * destruct (starts q (String c (sub p r s))) eqn:Hq; [|done].
        assert (starts q (sub p r (String c s)) = true) as Hq'.
        { by rewrite sub_unfold, Hp. }
        apply starts_sub_tail in Hq' as [Hq' _]; [|done..].
        rewrite Hq' in Hhead. unfold starts in Hhead.
        by rewrite Hp in Hhead.
      * apply (IH (String.length s)); [simpl; lia|done|done].
Qed.

End one_pattern.

Lemma covered_self (q s : string) :
  forall_suffix (fun t => implb (starts q t) (starts q t)) s = true.
Proof.
  induction s as [|c s IH]; [done|]. simpl. rewrite IH.
  by destruct (starts q (String c s)).
Qed.

Lemma covered_free (q p s : string) :
  occurs q s = false ->
  forall_suffix (fun t => implb (starts q t) (starts p t)) s = true.
Proof.
  induction s as [|c s IH]; [done|]. simpl.
  intros [-> Hs]%orb_false_iff. simpl. auto.
Qed.

(** Substitution leaves a text free of the literal as it is. *)
Lemma sub_free (lit repl s : string) :
  lit <> "" -> occurs lit s = false -> sub lit repl s = s.
Proof.
  intros Hlit. induction s as [|c s IH]; intros Hs.
  - rewrite sub_unfold by done. destruct lit; done.
  - rewrite sub_unfold by done. simpl in Hs.
    apply orb_false_iff in Hs as [Hhead Hs]. unfold starts in Hhead.
    destruct (strip_prefix lit (String c s)); [done|]. by rewrite IH.
Qed.

End substitution.

(** ** The import rewriter: the two patterns *)

Section rewrite.

Import update_imports.

(** [rewrite] is the substitution for [from], then the one for
    [require]. *)
Lemma rewrite_unfold (s : string) :
  rewrite s = sub require_lit require_repl (sub from_lit from_repl s).
Proof. reflexivity. Qed.

Lemma rewrite_free_from (s : string) : occurs from_lit (rewrite s) = false.
Proof.
  rewrite rewrite_unfold.
  apply occurs_sub; [done|done|reflexivity|reflexivity|].
  apply covered_free.
  apply occurs_sub; [done|done|reflexivity|reflexivity|].
  apply covered_self.
Qed.

Lemma rewrite_free_require (s : string) :
  occurs require_lit (rewrite s) = false.
Proof.
  rewrite rewrite_unfold.
  apply occurs_sub; [done|done|reflexivity|reflexivity|].
  apply covered_self.
Qed.

(** A text free of both literals is a fixed point. *)
Lemma rewrite_free (s : string) :
  occurs from_lit s = false -> occurs require_lit s = false ->
  rewrite s = s.
Proof.
  intros Hf Hr. rewrite rewrite_unfold.
  rewrite (sub_free from_lit) by done. by apply sub_free.
Qed.

End rewrite.

(** C9: the substitution of the import rewriter is idempotent: rewriting a
    text that was already rewritten changes nothing. *)
Theorem C9_rewrite_idempotent (s : string) :
  update_imports.rewrite (update_imports.rewrite s) = update_imports.rewrite s.
Proof.
  apply rewrite_free; [apply rewrite_free_from | apply rewrite_free_require].
Qed.

(** ** Line ends *)

Section newlines.

Lemma contains_app (c : ascii) (s t : string) :
  Py.contains c (s +:+ t) = Py.contains c s || Py.contains c t.
Proof.
  induction s as [|a s IH]; [done|].
  rewrite append_cons. cbn [Py.contains]. by rewrite IH, orb_assoc.
Qed.

Lemma universal_newlines_other (a : ascii) (s : string) :
  a <> "013"%char ->
  Py.universal_newlines (String a s) = String a (Py.universal_newlines s).
Proof.
  intros Ha. destruct a as [[] [] [] [] [] [] [] []]; done.
Qed.

Lemma universal_newlines_cr (s : string) :
  exists s',
    String.length s' <= String.length s /\
    Py.universal_newlines (String "013" s)
    = String "010" (Py.universal_newlines s').
Proof.
  destruct s as [|b s]; [by exists ""|].
  destruct (Ascii.eqb_spec b "010") as [->|Hb].
  - exists s. split; [simpl; lia|done].
  - exists (String b s). split; [done|].
    destruct b as [[] [] [] [] [] [] [] []]; done.
Qed.

(** A text read from a file has no carriage return left. *)
Lemma universal_newlines_free (s : string) :
  Py.contains "013" (Py.universal_newlines s) = false.
Proof.
  remember (String.length s) as n eqn:Hn. revert s Hn.
  induction n as [n IH] using lt_wf_ind. intros [|a s] ->; [done|].
  destruct (Ascii.eqb_spec a "013") as [->|Ha].
  - destruct (universal_newlines_cr s) as (s' & Hlen & ->).
    cbn [Py.contains]. cbn [Ascii.eqb Bool.eqb orb].
    apply (IH (String.length s')); [simpl; lia|done].
  - rewrite universal_newlines_other by done. cbn [Py.contains].
    apply Ascii.eqb_neq in Ha. rewrite Ha. cbn [orb].
    apply (IH (String.length s)); [simpl; lia|done].
Qed.

(** Reading leaves a text without carriage returns as it is. *)
Lemma universal_newlines_id (s : string) :
  Py.contains "013" s = false -> Py.universal_newlines s = s.
Proof.
  induction s as [|a s IH]; [done|]. cbn [Py.contains].
  intros [Ha Hs]%orb_false_elim. apply Ascii.eqb_neq in Ha.
  rewrite universal_newlines_other by done. by rewrite IH.
Qed.

End newlines.

Section clean.

Import update_imports.

(** A substitution brings in no character that its replacement does not
    hold. *)
Lemma sub_contains (c : ascii) (lit repl s : string) :
  lit <> "" -> Py.contains c repl = false -> Py.contains c s = false ->
  Py.contains c (sub lit repl s) = false.
Proof.
  intros Hlit Hrepl.
  remember (String.length s) as k eqn:Hk. revert s Hk.
  induction k as [k IH] using lt_wf_ind. intros s -> Hs.
  rewrite sub_unfold by done.
  destruct (strip_prefix lit s) as [rest|] eqn:Hstrip.
  - pose proof (strip_prefix_length _ _ _ Hstrip) as Hlen.
    apply strip_prefix_app in Hstrip. subst s.
    assert (0 < String.length lit) by (destruct lit; [done|simpl; lia]).
    rewrite contains_app in Hs. apply orb_false_elim in Hs as [_ Hrest].
    rewrite contains_app, Hrepl. cbn [orb].
    apply (IH (String.length rest)); [lia|done|done].
  - destruct s as [|a s]; [done|].
    cbn [Py.contains] in *. apply orb_false_elim in Hs as [-> Hs].
    cbn [orb]. apply (IH (String.length s)); [simpl; lia|done|done].
Qed.

Lemma rewrite_contains (c : ascii) (s : string) :
  Py.contains c from_repl = false -> Py.contains c require_repl = false ->
  Py.contains c s = false -> Py.contains c (rewrite s) = false.
Proof.
  intros Hf Hr Hs. rewrite rewrite_unfold.
  apply sub_contains; [done|done|]. by apply sub_contains.
Qed.

(** What was rewritten from a text read from a file reads back as it
    is. *)
Lemma rewrite_reads_back (s : string) :
  Py.universal_newlines (rewrite (Py.universal_newlines s))
  = rewrite (Py.universal_newlines s).
Proof.
  apply universal_newlines_id, rewrite_contains; [done|done|].
  apply universal_newlines_free.
Qed.

Lemma rewrite_settled (s : string) : rewrite (rewrite s) = rewrite s.
Proof.
  apply rewrite_free; [apply rewrite_free_from | apply rewrite_free_require].
Qed.

(** *** Stale and rewritten files *)

Lemma read_of_rewritten (f : file) :
  stale f = true -> read_of (rewritten f) = rewrite <$> read_of f.
Proof.
  unfold rewritten. intros Hs. rewrite Hs. unfold stale, read_of in *.
  destruct (r_ok f); [|done]. cbn [r_ok text].
  destruct (text f) as [s|]; [|done].
  cbn [fmap option_fmap option_map]. by rewrite rewrite_reads_back.
Qed.

(** A file is not stale once it was rewritten. *)
Lemma stale_rewritten (f : file) : stale (rewritten f) = false.
Proof.
  destruct (stale f) eqn:Hs.
  - unfold stale at 1. rewrite read_of_rewritten by done.
    unfold stale in Hs. destruct (read_of f) as [content|]; [|done].
    cbn [fmap option_fmap option_map].
    by rewrite rewrite_settled, String.eqb_refl.
  - unfold rewritten. by rewrite Hs.
Qed.

Lemma rewritten_rewritten (f : file) : rewritten (rewritten f) = rewritten f.
Proof. unfold rewritten at 1. by rewrite stale_rewritten. Qed.

(** Rewriting a file makes the next run end on it the way this one
    did. *)
Lemma file_failure_rewritten (o : option file) :
  file_failure (rewritten <$> o) = file_failure o.
Proof.
  destruct o as [f|]; [|done]. cbn [fmap option_fmap option_map].
  destruct (stale f) eqn:Hs; [|unfold rewritten; by rewrite Hs].
  pose proof (read_of_rewritten f Hs) as Hread.
  pose proof (stale_rewritten f) as Hnot.
  unfold rewritten in *. rewrite Hs in *.
  unfold stale, read_of, file_failure in *. cbn [r_ok text w_ok] in *.
  destruct (r_ok f); [|done]. destruct (text f) as [s|]; [|done].
  cbn [fmap option_fmap option_map] in *.
  rewrite rewrite_reads_back, rewrite_settled, String.eqb_refl.
  destruct (String.eqb (rewrite (Py.universal_newlines s))
              (Py.universal_newlines s)); [done|].
  cbn [negb andb] in Hs. by rewrite Hs.
Qed.

Lemma r_ok_rewritten (f : file) : r_ok (rewritten f) = r_ok f.
Proof. unfold rewritten. by destruct (stale f). Qed.

Lemma w_ok_rewritten (f : file) : w_ok (rewritten f) = w_ok f.
Proof. unfold rewritten. by destruct (stale f). Qed.

(** Replacing the text of a stale file is rewriting the file. *)
Lemma insert_rewritten (k : string) (f : file) (s : string)
    (fs : gmap string file) :
  fs !! k = Some f -> r_ok f = true -> w_ok f = true -> text f = Some s ->
  String.eqb (rewrite (Py.universal_newlines s)) (Py.universal_newlines s)
  = false ->
  <[k := File (Some (rewrite (Py.universal_newlines s))) (r_ok f) (w_ok f)]>
    fs
  = alter rewritten k fs.
Proof.
  intros Hf Hr Hw Ht Hc. apply map_eq. intros k'.
  destruct (decide (k' = k)) as [->|Hne].
  - rewrite lookup_insert_eq, lookup_alter_eq, Hf.
    cbn [fmap option_fmap option_map]. unfold rewritten, stale, read_of.
    rewrite Hr, Ht. cbn [fmap option_fmap option_map].
    by rewrite Hc, Hw.
  - by rewrite lookup_insert_ne, lookup_alter_ne.
Qed.

Lemma alter_rewritten_idle (k : string) (fs : gmap string file) :
  match fs !! k with Some f => stale f = false | None => True end ->
  alter rewritten k fs = fs.
Proof.
  intros H. apply map_eq. intros k'.
  destruct (decide (k' = k)) as [->|Hne]; [|by rewrite lookup_alter_ne].
  rewrite lookup_alter_eq. destruct (fs !! k) as [f|]; [|done].
  cbn [fmap option_fmap option_map]. unfold rewritten. by rewrite H.
Qed.

End clean.

(** ** The import rewriter: effects *)

Section effects.

Import update_imports.

Lemma bind_run {A B} (m : io A) (k : A -> io B) (fs : gmap string file) :
  (m ≫= k) fs =
    match m fs with
    | (log, fs', inl e) => (log, fs', inl e)
    | (log, fs', inr a) =>
        let '(log', fs'', r) := k a fs' in (log ++ log', fs'', r)
    end.
Proof. reflexivity. Qed.

(** The outcomes of [update_imports], one per way the body can go. *)
Lemma update_imports_run (E : env) (file_path : string)
    (fs : gmap string file) :
  update_imports_in E file_path fs =
    match fs !! realpath E file_path with
    | None => handled E file_path [OpenRead file_path] FileNotFoundError fs
    | Some f =>
        if r_ok f then
          match text f with
          | None =>
              handled E file_path [OpenRead file_path] UnicodeDecodeError fs
          | Some s =>
              let content := Py.universal_newlines s in
              if String.eqb (rewrite content) content then
                match stdout E (NoChanges file_path) with
                | None =>
                    ([OpenRead file_path; Print (NoChanges file_path)],
                     fs, inr tt)
                | Some e => handled E file_path [OpenRead file_path] e fs
                end
              else
                match stdout E (Updating file_path) with
                | None =>
                    if w_ok f then
                      ([OpenRead file_path; Print (Updating file_path);
                        OpenWrite file_path],
                       alter rewritten (realpath E file_path) fs, inr tt)
                    else
                      handled E file_path
                        [OpenRead file_path; Print (Updating file_path);
                         OpenWrite file_path]
                        PermissionError fs
                | Some e => handled E file_path [OpenRead file_path] e fs
                end
          end
        else handled E file_path [OpenRead file_path] PermissionError fs
    end.
Proof.
  assert (forall log e,
            (let '(log', fs'', r) :=
               print E (ErrorProcessing file_path e) fs in
             (log ++ log', fs'', r))
            = handled E file_path log e fs) as Hhandler.
  { intros log e. unfold print, handled, raise.
    destruct (stdout E (ErrorProcessing file_path e)); [|done].
    by rewrite (right_id_L [] (++)). }
  unfold update_imports_in, try_except, read_text, write_text.
  rewrite !bind_run. unfold emit at 1. unfold load.
  destruct (fs !! realpath E file_path) as [f|] eqn:Hf;
    [|apply Hhandler].
  destruct (r_ok f) eqn:Hr; [|apply Hhandler].
  destruct (text f) as [s|] eqn:Ht; [|apply Hhandler].
  unfold ret at 1. cbn iota beta zeta.
  destruct (String.eqb (rewrite (Py.universal_newlines s))
              (Py.universal_newlines s)) eqn:Hc; cbn [negb].
  - unfold print at 1.
    destruct (stdout E (NoChanges file_path)); [apply Hhandler|done].
  - rewrite !bind_run. unfold print at 1.
    destruct (stdout E (Updating file_path)); [apply Hhandler|].
    cbn iota beta. rewrite bind_run. unfold emit at 1, store.
    cbn zeta. rewrite Hf. destruct (w_ok f) eqn:Hw; [|apply Hhandler].
    cbn iota beta. rewrite <- (insert_rewritten _ f s) by done.
    by rewrite ?Hr, ?Hw.
Qed.

(** It opens its file for reading exactly once. *)
Lemma update_imports_reads (E : env) (file_path : string)
    (fs : gmap string file) :
  reads (log_of (update_imports_in E file_path fs)) = [file_path].
Proof.
  rewrite update_imports_run. unfold handled.
  repeat (case_match; try done).
Qed.

(** When standard output takes every message, [update_imports] lets no
    exception out, and reports the failure of its body, if it fails. *)
Lemma update_imports_returns (E : env) (file_path : string)
    (fs : gmap string file) :
  accepting E ->
  result_of (update_imports_in E file_path fs) = inr tt /\
  errors (log_of (update_imports_in E file_path fs))
  = match failure E fs file_path with
    | Some e => [(file_path, e)]
    | None => []
    end /\
  store_of (update_imports_in E file_path fs)
  = alter rewritten (realpath E file_path) fs.
Proof.
  intros HE. rewrite update_imports_run. unfold handled, failure.
  rewrite !HE.
  destruct (fs !! realpath E file_path) as [f|] eqn:Hf; cbn zeta.
  - unfold file_failure.
    destruct (r_ok f) eqn:Hr; [destruct (text f) as [s|] eqn:Ht|];
      [destruct (String.eqb (rewrite (Py.universal_newlines s))
                   (Py.universal_newlines s)) eqn:Hc;
       [|destruct (w_ok f) eqn:Hw]|..];
      (split; [done|split; [done|]]); try done;
      unfold store_of; cbn [fst snd]; symmetry; apply alter_rewritten_idle;
      rewrite Hf; unfold stale, read_of; rewrite Hr; try rewrite Ht;
      cbn [fmap option_fmap option_map]; try done.
    + by rewrite Hc.
    + by rewrite Hw, andb_false_r.
  - split; [done|split; [done|]]. unfold store_of. cbn [fst snd].
    symmetry. apply alter_rewritten_idle. by rewrite Hf.
Qed.

Lemma for_each_cons {A} (x : A) (l : list A) (body : A -> io unit)
    (fs : gmap string file) :
  for_each (x :: l) body fs =
    match body x fs with
    | (log, fs', inl e) => (log, fs', inl e)
    | (log, fs', inr _) =>
        let '(log', fs'', r) := for_each l body fs' in
        (log ++ log', fs'', r)
    end.
Proof.
  cbn [for_each]. rewrite bind_run.
  by destruct (body x fs) as [[log fs'] [e|[]]].
Qed.

Lemma for_each_app {A} (l1 l2 : list A) (body : A -> io unit)
    (fs : gmap string file) :
  for_each (l1 ++ l2) body fs =
    (for_each l1 body ≫= fun _ => for_each l2 body) fs.
Proof.
  revert fs. induction l1 as [|x l1 IH]; intros fs.
  - rewrite bind_run. cbn.
    by destruct (for_each l2 body fs) as [[log fs'] r].
  - rewrite <- app_comm_cons, bind_run, !for_each_cons.
    destruct (body x fs) as [[log fs'] [e|[]]]; [done|].
    rewrite IH, bind_run.
    destruct (for_each l1 body fs') as [[log1 fs1] [e|[]]]; [done|].
    destruct (for_each l2 body fs1) as [[log2 fs2] r].
    by rewrite (assoc_L (++)).
Qed.

(** The inner loop of [main] processes the [.js] files of one
    directory. *)
Lemma visit_run (E : env) (root : string) (dirs files : list string)
    (fs : gmap string file) :
  visit E (root, dirs, files) fs =
    for_each (js_files [(root, dirs, files)]) (update_imports_in E) fs.
Proof.
  unfold js_files. cbn [flat_map visit]. rewrite (right_id_L [] (++)).
  revert fs. induction files as [|file files IH]; intros fs; [done|].
  rewrite for_each_cons. cbn [List.filter].
  destruct (Py.endswith ".js" file).
  - cbn [map]. rewrite for_each_cons.
    destruct (update_imports_in E _ fs) as [[log fs'] [e|[]]]; [done|].
    by rewrite IH.
  - cbn. rewrite IH.
    by destruct (for_each _ (update_imports_in E) fs) as [[log fs'] r].
Qed.

Lemma js_files_cons (e : os.walk_entry) (entries : list os.walk_entry) :
  js_files (e :: entries) = js_files [e] ++ js_files entries.
Proof.
  unfold js_files. cbn [flat_map]. by rewrite (right_id_L [] (++)).
Qed.

(** The two loops of [main] process the [.js] files of the walk, in its
    order. *)
Lemma walk_run (E : env) (entries : list os.walk_entry)
    (fs : gmap string file) :
  for_each entries (visit E) fs
  = for_each (js_files entries) (update_imports_in E) fs.
Proof.
  revert fs. induction entries as [|[[root dirs] files] entries IH];
    intros fs; [done|].
  rewrite js_files_cons, for_each_app, bind_run, for_each_cons, visit_run.
  destruct (for_each _ (update_imports_in E) fs) as [[log fs'] [e|[]]];
    [done|].
  by rewrite IH.
Qed.

(** [main] on an existing root is the batch over the [.js] files of the
    walk, and then the closing message. *)
Lemma main_run (E : env) (w : os.world) (fs : gmap string file) :
  os.path_isdir w ROOT_DIR = true ->
  main_in E w fs
  = (for_each (js_files (os.walk w ROOT_DIR)) (update_imports_in E) ≫=
       fun _ => print E Completed) fs.
Proof.
  intros Hdir. unfold main_in. rewrite Hdir. cbn [negb].
  by rewrite !bind_run, walk_run.
Qed.

Lemma failure_alter (E : env) (k p : string) (fs : gmap string file) :
  failure E (alter rewritten k fs) p = failure E fs p.
Proof.
  unfold failure. destruct (decide (realpath E p = k)) as [<-|Hne].
  - by rewrite lookup_alter_eq, file_failure_rewritten.
  - by rewrite lookup_alter_ne.
Qed.

(** When standard output takes every message, processing a list of files
    goes through all of them, whatever happens to each, and reports the
    ones that failed. *)
Lemma for_each_update_imports (E : env) (paths : list string)
    (fs : gmap string file) :
  accepting E ->
  let run := for_each paths (update_imports_in E) fs in
  result_of run = inr tt /\
  reads (log_of run) = paths /\
  errors (log_of run)
  = omap (fun p => pair p <$> failure E fs p) paths /\
  store_of run = settled E paths fs.
Proof.
  intros HE. cbn zeta. revert fs.
  induction paths as [|file_path paths IH]; intros fs; [done|].
  rewrite for_each_cons.
  pose proof (update_imports_reads E file_path fs) as Hreads.
  destruct (update_imports_returns E file_path fs HE)
    as (Hret & Herrors & Hstore).
  destruct (update_imports_in E file_path fs) as [[log fs'] r].
  unfold result_of, log_of, store_of in Hret, Hreads, Herrors, Hstore.
  cbn [fst snd] in Hret, Hreads, Herrors, Hstore. subst r fs'.
  destruct (IH (alter rewritten (realpath E file_path) fs))
    as (IHret & IHreads & IHerrors & IHstore).
  destruct (for_each paths (update_imports_in E) _) as [[log' fs''] r'].
  unfold result_of, log_of, store_of in *. cbn [fst snd] in *.
  split; [done|]. split; [|split; [|done]].
  - unfold reads in *. by rewrite omap_app, Hreads, IHreads.
  - unfold errors in *. rewrite omap_app, Herrors, IHerrors.
    cbn [omap list_omap].
    assert (omap (fun p => pair p <$>
                    failure E (alter rewritten (realpath E file_path) fs) p)
              paths
            = omap (fun p => pair p <$> failure E fs p) paths) as ->.
    { clear. induction paths as [|p paths IH]; [done|].
      cbn [omap list_omap]. by rewrite IH, failure_alter. }
    by destruct (failure E fs file_path).
Qed.

(** What the batch leaves of each file: the files it was given are
    rewritten, the others are as they were. *)
Lemma settled_lookup (E : env) (paths : list string)
    (fs : gmap string file) (k : string) :
  settled E paths fs !! k
  = if decide (k ∈ realpath E <$> paths) then rewritten <$> fs !! k
    else fs !! k.
Proof.
  unfold settled. revert fs.
  induction paths as [|p paths IH]; intros fs; [done|].
  cbn [fold_left]. rewrite IH. rewrite fmap_cons.
  destruct (decide (k = realpath E p)) as [->|Hne].
  - rewrite lookup_alter_eq.
    rewrite (decide_True (P := _ ∈ _ :: _)) by apply list_elem_of_here.
    destruct (decide (realpath E p ∈ realpath E <$> paths)); [|done].
    destruct (fs !! realpath E p) as [f|]; [|done].
    cbn [fmap option_fmap option_map]. by rewrite rewritten_rewritten.
  - rewrite lookup_alter_ne by done.
    destruct (decide (k ∈ realpath E <$> paths)) as [Hin|Hout].
    + by rewrite decide_True by by apply list_elem_of_further.
    + rewrite decide_False; [done|].
      by intros [?|?]%elem_of_cons.
Qed.

(** A relation between stores that every run of the body keeps is kept by
    the loop, also when the loop is left by an exception. *)
Lemma for_each_keeps {A} (R : gmap string file -> gmap string file -> Prop)
    (l : list A) (body : A -> io unit) :
  (forall fs, R fs fs) ->
  (forall a b c, R a b -> R b c -> R a c) ->
  (forall x fs, x ∈ l -> R fs (store_of (body x fs))) ->
  forall fs, R fs (store_of (for_each l body fs)).
Proof.
  intros Hrefl Htrans. induction l as [|x l IH]; intros Hbody fs.
  - apply Hrefl.
  - rewrite for_each_cons.
    pose proof (Hbody x fs (list_elem_of_here _ _)) as Hx.
    destruct (body x fs) as [[log fs'] [e|[]]]; [done|].
    unfold store_of in Hx. cbn [fst snd] in Hx.
    assert (R fs' (store_of (for_each l body fs'))) as Hl.
    { apply IH. intros y fs0 Hy. apply Hbody.
      by apply list_elem_of_further. }
    destruct (for_each l body fs') as [[log' fs''] r].
    unfold store_of in *. cbn [fst snd] in *. by eapply Htrans.
Qed.

(** [update_imports] touches no file but its own, and leaves of that one
    either all or what rewriting it leaves. *)
Lemma update_imports_store (E : env) (file_path : string)
    (fs : gmap string file) :
  store_of (update_imports_in E file_path fs)
  = if will_write E fs file_path
    then alter rewritten (realpath E file_path) fs
    else fs.
Proof.
  rewrite update_imports_run. unfold will_write, handled, stale, read_of.
  destruct (fs !! realpath E file_path) as [f|]; [|by case_match].
  destruct (r_ok f);
    [|by destruct (stdout E (Updating file_path)); case_match].
  destruct (text f) as [s|];
    [|by destruct (stdout E (Updating file_path)); case_match].
  cbn [fmap option_fmap option_map]. cbn zeta.
  destruct (String.eqb (rewrite (Py.universal_newlines s))
              (Py.universal_newlines s)); cbn [negb andb].
  - by destruct (stdout E (Updating file_path)); repeat case_match.
  - destruct (stdout E (Updating file_path)); [by case_match|].
    destruct (w_ok f); [done|by case_match].
Qed.

End effects.




(** ** The tree reporter: the two loops *)

Section loops.

Import tree.

Variables cwd start_path : string.

Lemma visit_file_fold (root relative_root : string) (files : list string)
    (output_lines found_files : list string) :
  fold_left (visit_file root relative_root) files
    (output_lines, found_files)
  = (output_lines ++ map (file_line relative_root) files,
     found_files ++ map (posixpath.join root) files).
Proof.
  revert output_lines found_files.
  induction files as [|file_name files IH]; intros output_lines found_files.
  - cbn. by rewrite !(right_id_L [] (++)).
  - cbn [fold_left visit_file map]. rewrite IH.
    by rewrite <- !(assoc_L (++)).
Qed.

Lemma visit_dir_run (e : os.walk_entry)
    (output_lines found_files : list string) :
  visit_dir cwd start_path (output_lines, found_files) e
  = (output_lines ++ entry_lines cwd start_path e,
     found_files ++ map visit_path (visits [e])).
Proof.
  destruct e as [[root dirs] files].
  unfold visit_dir, entry_lines, head_line, visits. cbn [flat_map fst snd].
  rewrite (right_id_L [] (++)), !map_map.
  destruct (String.eqb (posixpath.relpath cwd root start_path) ".");
    rewrite visit_file_fold, <- (assoc_L (++)); reflexivity.
Qed.

(** The same, from what the line of the directory and the lines of its
    files are. *)
Lemma visit_dir_lines (root : string) (dirs files : list string)
    (head : string) (line : string -> string)
    (output_lines found_files : list string) :
  head_line cwd start_path (root, dirs, files) = head ->
  Forall (fun file_name =>
            visit_line cwd start_path (root, file_name) = line file_name)
    files ->
  visit_dir cwd start_path (output_lines, found_files) (root, dirs, files)
  = (output_lines ++ head :: map line files,
     found_files ++ map (posixpath.join root) files).
Proof.
  intros Hhead Hfiles. rewrite visit_dir_run. unfold entry_lines, visits.
  cbn [flat_map]. rewrite (right_id_L [] (++)), Hhead, !map_map.
  cbn [visit_path fst snd]. do 3 f_equal.
  by apply Forall_fmap_ext.
Qed.

Lemma visits_cons (e : os.walk_entry) (entries : list os.walk_entry) :
  visits (e :: entries) = visits [e] ++ visits entries.
Proof.
  unfold visits. cbn [flat_map]. by rewrite (right_id_L [] (++)).
Qed.

Lemma visit_dir_fold (entries : list os.walk_entry)
    (output_lines found_files : list string) :
  fold_left (visit_dir cwd start_path) entries (output_lines, found_files)
  = (output_lines ++ flat_map (entry_lines cwd start_path) entries,
     found_files ++ map visit_path (visits entries)).
Proof.
  revert output_lines found_files.
  induction entries as [|e entries IH]; intros output_lines found_files.
  - cbn. by rewrite !(right_id_L [] (++)).
  - cbn [fold_left flat_map].
    rewrite visit_dir_run, IH, (visits_cons e entries).
    by rewrite map_app, <- !(assoc_L (++)).
Qed.

Lemma append_each (found_files output_lines : list string) :
  fold_left (fun acc f_path => acc ++ [f_path]) found_files output_lines
  = output_lines ++ found_files.
Proof.
  revert output_lines.
  induction found_files as [|f found_files IH]; intros output_lines.
  - cbn. by rewrite (right_id_L [] (++)).
  - cbn [fold_left]. by rewrite IH, <- (assoc_L (++)).
Qed.

Lemma summarize_run (output_lines found_files : list string) :
  summarize (output_lines, found_files)
  = (output_lines ++ summary_block found_files, found_files).
Proof.
  unfold summarize, summary_block.
  destruct found_files as [|f found_files]; [done|].
  by rewrite append_each, <- !(assoc_L (++)).
Qed.

End loops.

(** The lines and the file list of a scan, in closed form. *)
Lemma scan_run (w : os.world) (start_path : string) :
  tree.scan w start_path
  = ([tree.header (os.getcwd w) start_path]
       ++ flat_map (tree.entry_lines (os.getcwd w) start_path)
            (os.walk w start_path)
       ++ tree.summary_block
            (map tree.visit_path (tree.visits (os.walk w start_path))),
     map tree.visit_path (tree.visits (os.walk w start_path))).
Proof.
  unfold tree.scan. rewrite visit_dir_fold, summarize_run.
  by rewrite <- (assoc_L (++)).
Qed.

Lemma generate_run (w : os.world) (start_path : string) :
  os.path_exists w start_path = true ->
  tree.generate_directory_tree_text w start_path
  = (Py.join Py.nl (tree.scan w start_path).1, (tree.scan w start_path).2).
Proof.
  intros Hexists. unfold tree.generate_directory_tree_text.
  rewrite Hexists. cbn [negb]. by destruct (tree.scan w start_path).
Qed.

Lemma stat_exists (w : os.world) (start_path : string) (n : os.node) :
  os.stat w start_path = Some n -> os.path_exists w start_path = true.
Proof. unfold os.path_exists. by intros ->. Qed.

Lemma stat_walk (w : os.world) (start_path : string) (n : os.node) :
  os.stat w start_path = Some n ->
  os.walk w start_path = os.walk_tree start_path n.
Proof. unfold os.walk. by intros ->. Qed.

(** C2: for a root that does not exist the reporter returns the error text
    naming the root, and no files. *)
Theorem C2_missing_root (w : os.world) (start_path : string) :
  os.path_exists w start_path = false ->
  tree.generate_directory_tree_text w start_path
  = ("Error: The specified path does not exist: '" +:+ start_path +:+ "'"
       +:+ Py.nl,
     []).
Proof.
  intros Hexists. unfold tree.generate_directory_tree_text.
  by rewrite Hexists.
Qed.

(** C3: the file list is the list of paths of the visited files, the
    file lines of the report are the lines of the same visited files in
    the same order, and so there are as many of the one as of the other. *)
Theorem C3_files_match_lines (w : os.world) (start_path : string) :
  os.path_exists w start_path = true ->
  let entries := os.walk w start_path in
  let cwd := os.getcwd w in
  let report := tree.generate_directory_tree_text w start_path in
  report.2 = map tree.visit_path (tree.visits entries) /\
  report.1 =
    Py.join Py.nl
      ([tree.header cwd start_path]
         ++ flat_map (fun e =>
                        tree.head_line cwd start_path e
                          :: map (tree.visit_line cwd start_path)
                               (tree.visits [e]))
              entries
         ++ tree.summary_block report.2) /\
  length report.2
    = length (map (tree.visit_line cwd start_path) (tree.visits entries)).
Proof.
  intros Hexists entries cwd report. subst report.
  rewrite (generate_run _ _ Hexists), scan_run. cbn [fst snd].
  split; [done|]. split; [done|]. by rewrite !length_map.
Qed.

(** ** The walk *)

Section walk.

(** Induction on a node, with the property for every entry of a
    directory. *)
Lemma node_nested_ind (P : os.node -> Prop) :
  P os.File -> P os.Opaque ->
  (forall entries, Forall (fun e => P e.2) entries -> P (os.Dir entries)) ->
  forall n, P n.
Proof.
  intros HFile HOpaque HDir. fix IH 1. intros [|entries|]; [done| |done].
  apply HDir. induction entries as [|[name child] entries IHentries];
    constructor; [apply IH | exact IHentries].
Qed.

Lemma map_eq_Forall2 {A B C} (f : A -> C) (g : B -> C) (l : list A)
    (k : list B) :
  map f l = map g k -> Forall2 (fun x y => f x = g y) l k.
Proof.
  revert k. induction l as [|x l IH]; intros [|y k] Heq; try done.
  injection Heq as Hxy Heq. constructor; auto.
Qed.

(** The directories of the walk are the top followed down each chain of
    names. *)
Lemma walk_roots (n : os.node) (top : string) :
  map (fun e : os.walk_entry => e.1.1) (os.walk_tree top n)
  = map (os.descend top) (os.chains n).
Proof.
  revert top. induction n as [| |entries IH] using node_nested_ind;
    intros top; [done|done|].
  cbn [os.walk_tree os.chains map]. f_equal.
  induction IH as [|[name child] entries Hchild _ IHentries]; [done|].
  cbn [flat_map fst snd]. rewrite !map_app, IHentries. f_equal.
  rewrite Hchild, map_map. done.
Qed.

Lemma chains_well_named (n : os.node) :
  os.well_named n = true ->
  Forall (Forall (fun x => os.good_name x = true)) (os.chains n).
Proof.
  induction n as [| |entries IH] using node_nested_ind;
    [by constructor|by constructor|].
  cbn [os.well_named os.chains]. intros Hentries.
  constructor; [by constructor|].
  induction IH as [|[name child] entries Hchild _ IHentries];
    [by constructor|].
  cbn [forallb fst snd] in Hentries.
  apply andb_true_iff in Hentries as [Hhead Hentries].
  apply andb_true_iff in Hhead as [Hname Hwn].
  cbn [flat_map fst snd]. apply Forall_app. split; [|by apply IHentries].
  apply Forall_fmap. eapply Forall_impl; [by apply Hchild|].
  intros names Hnames. by constructor.
Qed.

End walk.

(** ** The tree reporter: indentation *)

Section indentation.

Import tree.

Variables cwd start_path : string.
Hypothesis cwd_absolute : Py.startswith posixpath.sep cwd = true.
Hypothesis start_nonempty : start_path <> "".

Lemma join_names_not_curdir (names : list string) :
  names <> [] -> Forall (fun x => os.good_name x = true) names ->
  String.eqb (Py.join posixpath.sep names) "." = false.
Proof.
  intros Hne Hnames. apply String.eqb_neq. intros Heq.
  assert (Forall (fun x => Py.count posixpath.sep_char x = 0) names)
    as Hfree.
  { eapply Forall_impl; [exact Hnames|]. by intros ? (_&_&_&?)%good_name_spec. }
  pose proof (count_join _ _ Hfree) as Hcount.
  change (String posixpath.sep_char "") with posixpath.sep in Hcount.
  rewrite Heq in Hcount. cbn in Hcount.
  destruct names as [|name [|name' names]]; [done| |cbn in Hcount; lia].
  inversion Hnames as [|? ? Hname _]; subst.
  apply good_name_spec in Hname as (_ & Hcur & _). by apply Hcur.
Qed.

(** The root: the marker, and one glyph for its files. *)
Lemma root_lines (dirs files : list string) :
  head_line cwd start_path (start_path, dirs, files) = root_marker /\
  Forall (fun file_name =>
            visit_line cwd start_path (start_path, file_name)
            = indent_glyph +:+ branch_glyph +:+ file_name)
    files.
Proof.
  unfold head_line, visit_line, file_line. cbn [fst snd].
  rewrite relpath_self. split; [done|].
  apply Forall_forall. intros file_name _. cbn. by rewrite append_nil_r.
Qed.

(** A directory below the root, reached through [names] and then
    [name]: as many glyphs as there are names before the last one, and
    one more for its files. *)
Lemma below_root_lines (names : list string) (name : string)
    (dirs files : list string) :
  Forall (fun x => os.good_name x = true) names ->
  os.good_name name = true ->
  let root := os.descend start_path (names ++ [name]) in
  Py.count posixpath.sep_char (posixpath.relpath cwd root start_path)
  = length names /\
  head_line cwd start_path (root, dirs, files)
  = Py.repeat_str indent_glyph (length names) +:+ branch_glyph
      +:+ name +:+ posixpath.sep /\
  Forall (fun file_name =>
            visit_line cwd start_path (root, file_name)
            = Py.repeat_str indent_glyph (length names + 1)
                +:+ branch_glyph +:+ file_name)
    files.
Proof.
  intros Hnames Hname root.
  assert (Forall (fun x => os.good_name x = true) (names ++ [name]))
    as Hall by (apply Forall_app; split; [done|by constructor]).
  assert (posixpath.relpath cwd root start_path
          = Py.join posixpath.sep (names ++ [name])) as Hrel.
  { unfold root. rewrite relpath_descend by done. by destruct names. }
  assert (Py.count posixpath.sep_char (Py.join posixpath.sep (names ++ [name]))
          = length names) as Hcount.
  { unfold posixpath.sep. rewrite count_join.
    - rewrite length_app. cbn. lia.
    - eapply Forall_impl; [exact Hall|].
      by intros ? (_&_&_&?)%good_name_spec. }
  unfold head_line, visit_line, dir_line, file_line. cbn [fst snd].
  rewrite Hrel, Hcount, join_names_not_curdir by (try done; by destruct names).
  unfold root at 1. rewrite basename_descend by done.
  split; [done|]. split; [done|]. by apply Forall_forall.
Qed.

End indentation.

(** C1 (as amended): for every directory of the walk the loop body
    appends its line with as many indent glyphs as there are separators
    in its path relative to the root, which is one less than the number
    of names that lead to it: none for a child of the root, one for a
    grandchild.  Its files get one glyph more, and the files of the root
    get one. *)
Theorem C1_indent_depth (w : os.world) (start_path : string) (n : os.node) :
  os.stat w start_path = Some n ->
  os.well_named n = true ->
  Py.startswith "/" (os.getcwd w) = true ->
  Forall2 (tree.indented (os.getcwd w) start_path)
    (os.walk w start_path) (os.chains n).
Proof.
  intros Hstat Hwn Hcwd. set (cwd := os.getcwd w).
  rewrite (stat_walk _ _ _ Hstat).
  assert (start_path <> "") as Hstart.
  { intros ->. unfold os.stat in Hstat. done. }
  pose proof (walk_roots n start_path) as Hroots.
  apply map_eq_Forall2 in Hroots.
  pose proof (chains_well_named n Hwn) as Hchains.
  revert Hroots Hchains.
  generalize (os.chains n). generalize (os.walk_tree start_path n).
  intros entries0 chains0 Hroots.
  induction Hroots as [|e names entries chains Hroot _ IH]; intros Hchains;
    [constructor|].
  inversion Hchains as [|? ? Hnames Hchains']; subst.
  constructor; [|by apply IH]. clear IH Hchains Hchains'.
  destruct e as [[root dirs] files]. unfold tree.indented.
  cbn [fst snd] in *. subst root.
  split; [done|].
  induction names as [|name0 names0 _] using rev_ind.
  - destruct (root_lines cwd start_path dirs files) as [Hhead Hfiles].
    split; [done|]. intros output_lines found_files.
    by apply visit_dir_lines.
  - apply Forall_app in Hnames as [Hnames Hname].
    inversion Hname; subst.
    destruct (below_root_lines cwd start_path Hcwd Hstart names0 name0
                dirs files Hnames) as (Hcount & Hhead & Hfiles); [done|].
    unfold tree.depth_dir_line, tree.depth_file_line.
    rewrite length_app, last_last. cbn [length].
    replace (length names0 + 1 - 1) with (length names0) by lia.
    replace (Nat.max 1 (length names0 + 1)) with (length names0 + 1) by lia.
    split; [done|]. intros output_lines found_files.
    apply visit_dir_lines; [|done].
    rewrite Hhead. by destruct (names0 ++ [name0]) eqn:Heq;
      [destruct names0|].
Qed.

(** ** The tree reporter: small roots and the summary *)

Section reports.

Lemma entries_empty (entries : list (string * os.node)) :
  os.dirnames entries = [] -> os.filenames entries = [] -> entries = [].
Proof.
  destruct entries as [|[name child] entries]; [done|].
  unfold os.dirnames, os.filenames. cbn [List.filter snd].
  by destruct child.
Qed.

Lemma entries_one_file (entries : list (string * os.node))
    (file_name : string) :
  os.dirnames entries = [] -> os.filenames entries = [file_name] ->
  entries = [(file_name, os.File)].
Proof.
  destruct entries as [|[name child] entries]; [done|].
  unfold os.dirnames, os.filenames. cbn [List.filter snd].
  destruct child; cbn [os.is_file negb map fst]; try done.
  intros Hdirs [= -> Hfiles]. f_equal. by apply entries_empty.
Qed.

End reports.

(** C4: for a root directory without subdirectories and without files the
    report is the header line, the marker line of the root and the line
    saying that no files were found, and the file list is empty. *)
Theorem C4_empty_root (w : os.world) (start_path : string)
    (entries : list (string * os.node)) :
  os.stat w start_path = Some (os.Dir entries) ->
  os.dirnames entries = [] ->
  os.filenames entries = [] ->
  tree.generate_directory_tree_text w start_path
  = (Py.join Py.nl
       [ "Scanning directory tree from: "
           +:+ posixpath.abspath (os.getcwd w) start_path +:+ Py.nl;
         "./";
         "No files found or an error occurred during scanning." ],
     []).
Proof.
  intros Hstat Hdirs Hfiles.
  rewrite (entries_empty _ Hdirs Hfiles) in Hstat.
  rewrite (generate_run _ _ (stat_exists _ _ _ Hstat)), scan_run.
  rewrite (stat_walk _ _ _ Hstat).
  cbn [os.walk_tree os.dirnames os.filenames List.filter map flat_map].
  unfold tree.entry_lines.
  destruct (root_lines (os.getcwd w) start_path [] []) as [-> _].
  reflexivity.
Qed.

(** C5: for a root directory that holds the one file [a.txt] and nothing
    else, the file list is the path of that file under the root, which is
    the root, a separator unless the root ends with one, and [a.txt]; and
    the report closes with the summary of one file. *)
Theorem C5_single_file (w : os.world) (start_path : string)
    (entries : list (string * os.node)) :
  os.stat w start_path = Some (os.Dir entries) ->
  os.dirnames entries = [] ->
  os.filenames entries = ["a.txt"] ->
  tree.generate_directory_tree_text w start_path
  = (Py.join Py.nl
       [ "Scanning directory tree from: "
           +:+ posixpath.abspath (os.getcwd w) start_path +:+ Py.nl;
         "./";
         "│   ├── a.txt";
         Py.nl +:+ "--- Summary: All Files Found (Full Paths) ---";
         posixpath.join start_path "a.txt";
         Py.nl +:+ "Total files found: 1" ],
     [posixpath.join start_path "a.txt"]) /\
  posixpath.join start_path "a.txt"
  = (if Py.endswith "/" start_path then start_path +:+ "a.txt"
     else start_path +:+ "/a.txt").
Proof.
  intros Hstat Hdirs Hfiles. split.
  2: { unfold posixpath.join.
       change (Py.startswith posixpath.sep "a.txt") with false.
       destruct (String.eqb_spec start_path "") as [->|_];
         [by unfold os.stat in Hstat|].
       cbn [orb]. change posixpath.sep with "/".
       by destruct (Py.endswith "/" start_path). }
  rewrite (entries_one_file _ _ Hdirs Hfiles) in Hstat.
  rewrite (generate_run _ _ (stat_exists _ _ _ Hstat)), scan_run.
  rewrite (stat_walk _ _ _ Hstat).
  cbn [os.walk_tree os.dirnames os.filenames List.filter map flat_map
       os.is_file snd fst negb].
  unfold tree.entry_lines.
  destruct (root_lines (os.getcwd w) start_path [] ["a.txt"])
    as [-> Hline%Forall_inv].
  cbn [tree.visits flat_map map app]. rewrite Hline.
  reflexivity.
Qed.


(** ** The statements on the sample filesystems *)

Example posixpath_samples :
  posixpath.relpath "/home/u" "root/sub/deep" "root" = "sub/deep" /\
  posixpath.relpath "/home/u" "../x/" "../x/" = "." /\
  posixpath.relpath "/home/u" "/a/b" "/a/c/d" = "../../b" /\
  posixpath.normpath "//a/./b/../c//" = "//a/c" /\
  posixpath.normpath "a/../../b" = "../b" /\
  posixpath.normpath "/../b" = "/b" /\
  posixpath.basename "a/b/" = "" /\
  posixpath.basename "a/b" = "b" /\
  posixpath.join "a/" "b" = "a/b" /\
  posixpath.join "a" "/b" = "/b".
Proof. repeat split; vm_compute; reflexivity. Qed.

(** The scenario of the specification: [/tmp/x] with [a.txt] and
    [sub/b.txt]. *)
Example tmp_x_report :
  tree.generate_directory_tree_text examples.world "/tmp/x"
  = (Py.join Py.nl
       [ "Scanning directory tree from: /tmp/x" +:+ Py.nl;
         "./";
         "│   ├── a.txt";
         "├── sub/";
         "│   ├── b.txt";
         Py.nl +:+ "--- Summary: All Files Found (Full Paths) ---";
         "/tmp/x/a.txt";
         "/tmp/x/sub/b.txt";
         Py.nl +:+ "Total files found: 2" ],
     ["/tmp/x/a.txt"; "/tmp/x/sub/b.txt"]).
Proof. vm_compute. reflexivity. Qed.

Example rewrite_samples :
  update_imports.rewrite "import x from '@/x'; const y = require('@/y')"
  = "import x from '#@/x'; const y = require('#@/y')" /\
  update_imports.rewrite "from '#@/x'" = "from '#@/x'" /\
  update_imports.rewrite "from from '@/@/" = "from from '#@/@/".
Proof. repeat split; vm_compute; reflexivity. Qed.

(** C1, as the specification words it, fails on [root/sub/deep/file.txt]:
    the line of [file.txt] has two indent glyphs, not three, and the line
    of [sub], a child of the root, has none, not one. *)
Lemma C1_counterexample :
  os.walk examples.world "root"
  = [ ("root", ["sub"], []);
      ("root/sub", ["deep"], []);
      ("root/sub/deep", [], ["file.txt"]) ] /\
  (tree.scan examples.world "root").1
  = [ "Scanning directory tree from: /home/u/root" +:+ Py.nl;
      "./";
      "├── sub/";
      "│   ├── deep/";
      "│   │   ├── file.txt";
      Py.nl +:+ "--- Summary: All Files Found (Full Paths) ---";
      "root/sub/deep/file.txt";
      Py.nl +:+ "Total files found: 1" ] /\
  tree.visit_line "/home/u" "root" ("root/sub/deep", "file.txt")
  = Py.repeat_str tree.indent_glyph 2 +:+ tree.branch_glyph +:+ "file.txt" /\
  tree.visit_line "/home/u" "root" ("root/sub/deep", "file.txt")
  <> Py.repeat_str tree.indent_glyph 3 +:+ tree.branch_glyph +:+ "file.txt" /\
  tree.head_line "/home/u" "root" ("root/sub", ["deep"], [])
  = Py.repeat_str tree.indent_glyph 0 +:+ tree.branch_glyph +:+ "sub/" /\
  tree.head_line "/home/u" "root" ("root/sub", ["deep"], [])
  <> Py.repeat_str tree.indent_glyph 1 +:+ tree.branch_glyph +:+ "sub/".
Proof. repeat split; vm_compute; congruence. Qed.

Lemma C1_witness :
  os.stat examples.world "root" = Some examples.nested /\
  os.well_named examples.nested = true /\
  Py.startswith "/" (os.getcwd examples.world) = true /\
  Forall2 (tree.indented (os.getcwd examples.world) "root")
    (os.walk examples.world "root") (os.chains examples.nested).
Proof.
  split; [reflexivity|]. split; [reflexivity|]. split; [reflexivity|].
  apply (C1_indent_depth examples.world "root" examples.nested);
    reflexivity.
Defined.

Lemma C2_witness :
  os.path_exists examples.world "nowhere" = false /\
  tree.generate_directory_tree_text examples.world "nowhere"
  = ("Error: The specified path does not exist: '" +:+ "nowhere" +:+ "'"
       +:+ Py.nl,
     []).
Proof.
  split; [reflexivity|].
  apply (C2_missing_root examples.world "nowhere"). reflexivity.
Defined.

Lemma C3_witness :
  os.path_exists examples.world "/tmp/x" = true /\
  let entries := os.walk examples.world "/tmp/x" in
  let cwd := os.getcwd examples.world in
  let report := tree.generate_directory_tree_text examples.world "/tmp/x" in
  report.2 = map tree.visit_path (tree.visits entries) /\
  report.1 =
    Py.join Py.nl
      ([tree.header cwd "/tmp/x"]
         ++ flat_map (fun e =>
                        tree.head_line cwd "/tmp/x" e
                          :: map (tree.visit_line cwd "/tmp/x")
                               (tree.visits [e]))
              entries
         ++ tree.summary_block report.2) /\
  length report.2
    = length (map (tree.visit_line cwd "/tmp/x") (tree.visits entries)).
Proof.
  split; [reflexivity|].
  apply (C3_files_match_lines examples.world "/tmp/x").
  reflexivity.
Defined.

Lemma C4_witness :
  os.stat examples.world "empty" = Some (os.Dir []) /\
  os.dirnames [] = [] /\
  os.filenames [] = [] /\
  tree.generate_directory_tree_text examples.world "empty"
  = (Py.join Py.nl
       [ "Scanning directory tree from: "
           +:+ posixpath.abspath (os.getcwd examples.world) "empty"
           +:+ Py.nl;
         "./";
         "No files found or an error occurred during scanning." ],
     []).
Proof.
  split; [reflexivity|]. split; [reflexivity|]. split; [reflexivity|].
  apply (C4_empty_root examples.world "empty" []); reflexivity.
Defined.

Lemma C5_witness :
  os.stat examples.world "single" = Some (os.Dir [("a.txt", os.File)]) /\
  os.dirnames [("a.txt", os.File)] = [] /\
  os.filenames [("a.txt", os.File)] = ["a.txt"] /\
  tree.generate_directory_tree_text examples.world "single"
  = (Py.join Py.nl
       [ "Scanning directory tree from: "
           +:+ posixpath.abspath (os.getcwd examples.world) "single"
           +:+ Py.nl;
         "./";
         "│   ├── a.txt";
         Py.nl +:+ "--- Summary: All Files Found (Full Paths) ---";
         posixpath.join "single" "a.txt";
         Py.nl +:+ "Total files found: 1" ],
     [posixpath.join "single" "a.txt"]) /\
  posixpath.join "single" "a.txt"
  = (if Py.endswith "/" "single" then "single" +:+ "a.txt"
     else "single" +:+ "/a.txt").
Proof.
  split; [reflexivity|]. split; [reflexivity|]. split; [reflexivity|].
  apply (C5_single_file examples.world "single" [("a.txt", os.File)]);
    reflexivity.
Defined.




(** What the batch does on the sample project: the three scripts are
    opened in the order of the walk; the first is rewritten, the write to
    the second is refused and the third cannot be found, and the run goes
    on to its end. *)
Example main_sample :
  let run := update_imports.main examples.world examples.files in
  update_imports.log_of run
  = [ update_imports.OpenRead "src/a.js";
      update_imports.Print (update_imports.Updating "src/a.js");
      update_imports.OpenWrite "src/a.js";
      update_imports.OpenRead "src/lib/b.js";
      update_imports.Print (update_imports.Updating "src/lib/b.js");
      update_imports.OpenWrite "src/lib/b.js";
      update_imports.Print
        (update_imports.ErrorProcessing "src/lib/b.js"
           update_imports.PermissionError);
      update_imports.OpenRead "src/lib/c.js";
      update_imports.Print
        (update_imports.ErrorProcessing "src/lib/c.js"
           update_imports.FileNotFoundError);
      update_imports.Print update_imports.Completed ] /\
  update_imports.errors (update_imports.log_of run)
  = [ ("src/lib/b.js", update_imports.PermissionError);
      ("src/lib/c.js", update_imports.FileNotFoundError) ] /\
  update_imports.store_of run !! "src/a.js"
  = Some (update_imports.File (Some "import x from '#@/x'") true true).
Proof. repeat split; vm_compute; reflexivity. Qed.

(** Line ends and links: a rewritten script loses its carriage returns, a
    script without a pattern keeps them, and a path that is a link has
    the file it points to rewritten. *)
Example newline_samples :
  let run := update_imports.main examples.world examples.files_crlf in
  update_imports.text <$> update_imports.store_of run !! "src/a.js"
  = Some (Some ("import x from '#@/x'" +:+ Py.nl +:+ "x()" +:+ Py.nl)) /\
  update_imports.store_of run !! "src/lib/b.js"
  = examples.files_crlf !! "src/lib/b.js" /\
  update_imports.store_of
    (update_imports.update_imports_in examples.with_link "src/l.js"
       examples.files_outside)
  = {[ "outside.txt" :=
         update_imports.File (Some "import x from '#@/x'") true true ]}.
Proof. repeat split; vm_compute; reflexivity. Qed.

(** * Further properties *)

(** ** The tree reporter: what is listed *)

Section listing.

Import tree.

Lemma visits_app (l1 l2 : list os.walk_entry) :
  visits (l1 ++ l2) = visits l1 ++ visits l2.
Proof. unfold visits. apply flat_map_app. Qed.

Lemma visits_head (root : string) (dirs files : list string)
    (entries : list os.walk_entry) :
  visits ((root, dirs, files) :: entries)
  = map (pair root) files ++ visits entries.
Proof. reflexivity. Qed.


(** The walk visits each file below a directory once; on what is not a
    directory it visits nothing. *)
Lemma walk_tree_visits (n : os.node) (top : string) :
  length (visits (os.walk_tree top n))
  = if os.is_file n then 0 else os.count_files n.
Proof.
  revert top. induction n as [| |entries IH] using node_nested_ind;
    intros top; [done|done|].
  cbn [os.walk_tree os.count_files os.is_file].
  rewrite visits_head, length_app.
  rewrite length_map. unfold os.filenames. rewrite length_map.
  induction IH as [|[name child] entries Hchild _ IHentries]; [done|].
  cbn [flat_map map sum_list fst snd List.filter].
  rewrite visits_app, length_app, <- IHentries, Hchild.
  destruct child as [|entries'|]; cbn -[visits os.walk_tree]; lia.
Qed.

Lemma startswith_true (p s : string) :
  Py.startswith p s = true <-> exists x, s = p +:+ x.
Proof.
  unfold Py.startswith. revert s. induction p as [|a p IH]; intros s.
  - destruct s; (split; [intros _; by eexists|done]).
  - destruct s as [|b s]; cbn [String.prefix].
    + split; [done|]. intros [x Hx]. by rewrite append_cons in Hx.
    + destruct (ascii_dec a b) as [->|Hne].
      * rewrite IH. split; intros [x Hx]; exists x.
        -- by rewrite append_cons, Hx.
        -- rewrite append_cons in Hx. by injection Hx.
      * split; [done|]. intros [x Hx]. rewrite append_cons in Hx.
        by injection Hx.
Qed.

Lemma startswith_join_l (top p name : string) :
  p <> "" -> os.good_name name = true ->
  Py.startswith top p = true ->
  Py.startswith top (posixpath.join p name) = true.
Proof.
  intros Hp Hname [x ->]%startswith_true.
  destruct (join_shape _ name Hp Hname) as (p0 & -> & [<-| Hp0]).
  - apply startswith_true. eexists. by rewrite append_assoc.
  - apply startswith_true. exists (x +:+ name).
    rewrite <- !append_assoc, <- Hp0. by rewrite append_assoc.
Qed.

Lemma startswith_descend (top : string) (names : list string) :
  top <> "" -> Forall (fun x => os.good_name x = true) names ->
  Py.startswith top (os.descend top names) = true.
Proof.
  intros Htop. induction names as [|name names IH] using rev_ind;
    intros Hnames.
  - apply startswith_true. exists "". by rewrite append_nil_r.
  - apply Forall_app in Hnames as [Hnames Hname]. inversion Hname; subst.
    rewrite descend_snoc. apply startswith_join_l; [|done|by apply IH].
    by apply descend_nonempty.
Qed.

(** In a well-named tree the files of every directory of the walk are
    well named. *)
Lemma walk_tree_files (n : os.node) (top : string) :
  os.well_named n = true ->
  Forall (fun e : os.walk_entry =>
            Forall (fun x => os.good_name x = true) e.2)
    (os.walk_tree top n).
Proof.
  revert top. induction n as [| |entries IH] using node_nested_ind;
    intros top; [by constructor|by constructor|].
  cbn [os.well_named os.walk_tree]. intros Hentries. constructor.
  - cbn [snd]. unfold os.filenames. clear IH.
    induction entries as [|[name child] entries IHentries]; [by constructor|].
    cbn [forallb fst snd] in Hentries.
    apply andb_true_iff in Hentries as [[Hname _]%andb_true_iff Hentries].
    cbn [List.filter snd]. destruct (os.is_file child); [|by apply IHentries].
    constructor; [done|by apply IHentries].
  - induction IH as [|[name child] entries Hchild _ IHentries];
      [by constructor|].
    cbn [forallb fst snd] in Hentries.
    apply andb_true_iff in Hentries as [[Hname Hwn]%andb_true_iff Hentries].
    cbn [flat_map fst snd]. apply Forall_app. split; [by apply Hchild|].
    by apply IHentries.
Qed.

End listing.

(** X1: a root that exists but is not a directory that can be listed (a
    file, or a directory whose listing fails) gives the header and the
    line saying that no files were found, without the marker of the root,
    and no files. *)
Theorem unlistable_root_report (w : os.world) (start_path : string)
    (n : os.node) :
  os.stat w start_path = Some n ->
  n = os.File \/ n = os.Opaque ->
  tree.generate_directory_tree_text w start_path
  = (Py.join Py.nl
       [ "Scanning directory tree from: "
           +:+ posixpath.abspath (os.getcwd w) start_path +:+ Py.nl;
         "No files found or an error occurred during scanning." ],
     []).
Proof.
  intros Hstat Hn.
  rewrite (generate_run _ _ (stat_exists _ _ _ Hstat)), scan_run.
  rewrite (stat_walk _ _ _ Hstat). by destruct Hn as [-> | ->].
Qed.

(** X2: for a root directory the number of paths in the file list is the
    number of non-directory entries below it, not counting what lies
    behind entries that the walk does not enter. *)
Theorem found_files_count (w : os.world) (start_path : string)
    (entries : list (string * os.node)) :
  os.stat w start_path = Some (os.Dir entries) ->
  length (tree.generate_directory_tree_text w start_path).2
  = os.count_files (os.Dir entries).
Proof.
  intros Hstat.
  rewrite (generate_run _ _ (stat_exists _ _ _ Hstat)), scan_run.
  rewrite (stat_walk _ _ _ Hstat). cbn [snd].
  by rewrite length_map, walk_tree_visits.
Qed.


(** X4: in a well-named tree every path of the file list starts with the
    root as it was given, and its last component is the name of the file
    it stands for. *)
Theorem found_files_under_root (w : os.world) (start_path : string)
    (n : os.node) :
  os.stat w start_path = Some n ->
  os.well_named n = true ->
  Forall2 (fun path (v : string * string) =>
             Py.startswith start_path path = true /\
             posixpath.basename path = v.2)
    (tree.generate_directory_tree_text w start_path).2
    (tree.visits (os.walk w start_path)).
Proof.
  intros Hstat Hwn.
  assert (start_path <> "") as Hstart.
  { intros ->. by unfold os.stat in Hstat. }
  rewrite (generate_run _ _ (stat_exists _ _ _ Hstat)), scan_run.
  rewrite (stat_walk _ _ _ Hstat). cbn [snd].
  pose proof (walk_tree_files n start_path Hwn) as Hfiles.
  pose proof (map_eq_Forall2 _ _ _ _ (walk_roots n start_path)) as Hroots.
  pose proof (chains_well_named n Hwn) as Hchains.
  revert Hfiles Hroots Hchains.
  generalize (os.chains n). generalize (os.walk_tree start_path n).
  intros entries0 chains0 Hfiles Hroots. revert Hfiles.
  induction Hroots as [|e names entries chains Hroot _ IH];
    intros Hfiles Hchains; [constructor|].
  inversion Hfiles as [|? ? Hfile Hfiles']; subst.
  inversion Hchains as [|? ? Hnames Hchains']; subst.
  destruct e as [[root dirs] files]. cbn [fst snd] in *. subst root.
  rewrite visits_head, map_app. apply Forall2_app; [|by apply IH].
  clear IH Hfiles Hfiles' Hchains Hchains'.
  induction Hfile as [|file files Hgood _ IHfiles]; constructor; [|done].
  unfold tree.visit_path. cbn [fst snd]. split.
  - apply startswith_join_l; [by apply descend_nonempty|done|].
    by apply startswith_descend.
  - rewrite <- descend_snoc. by apply basename_descend.
Qed.

(** ** The tree reporter: entries the walk does not enter *)

Section unentered.

Import tree.

Lemma filenames_prune (entries : list (string * os.node)) :
  os.filenames
    (flat_map (fun e =>
                 match snd e with
                 | os.Opaque => []
                 | os.File | os.Dir _ => [(fst e, os.prune (snd e))]
                 end)
       entries)
  = os.filenames entries.
Proof.
  unfold os.filenames.
  induction entries as [|[name child] entries IH]; [done|].
  cbn [flat_map fst snd]. destruct child; cbn [app List.filter snd fst
    os.prune os.is_file map]; by rewrite ?IH.
Qed.

(** Taking those entries out changes neither the directories of the walk
    nor their files. *)
Lemma walk_tree_prune (n : os.node) (top : string) :
  map read_part (os.walk_tree top (os.prune n))
  = map read_part (os.walk_tree top n).
Proof.
  revert top. induction n as [| |entries IH] using node_nested_ind;
    intros top; [done|done|].
  cbn [os.prune os.walk_tree map]. f_equal.
  - unfold read_part. cbn [fst snd]. by rewrite filenames_prune.
  - induction IH as [|[name child] entries Hchild _ IHentries]; [done|].
    cbn [flat_map fst snd]. rewrite map_app, <- IHentries, <- Hchild.
    destruct child; cbn [app flat_map fst snd]; rewrite ?map_app;
      by rewrite ?(right_id_L [] (++)).
Qed.

(** The lines and the paths of the report depend on the walk only through
    what the loop body reads. *)
Lemma report_read_part (cwd start_path : string)
    (l1 l2 : list os.walk_entry) :
  map read_part l1 = map read_part l2 ->
  flat_map (entry_lines cwd start_path) l1
  = flat_map (entry_lines cwd start_path) l2 /\
  visits l1 = visits l2.
Proof.
  intros Heq%map_eq_Forall2.
  induction Heq as [|[[r1 d1] f1] [[r2 d2] f2] l1 l2 Hread _ [IH1 IH2]];
    [done|].
  injection Hread as -> ->.
  rewrite !visits_head, IH2. cbn [flat_map]. by rewrite IH1.
Qed.

End unentered.

(** X5: entries that are listed among the directories but not walked into
    (links to directories, directories that cannot be listed) leave no
    trace in the report: the report of a root is the report of the same
    root with those entries taken out. *)
Theorem unentered_entries_invisible (w1 w2 : os.world) (start_path : string)
    (n : os.node) :
  os.getcwd w1 = os.getcwd w2 ->
  os.stat w1 start_path = Some n ->
  os.stat w2 start_path = Some (os.prune n) ->
  tree.generate_directory_tree_text w1 start_path
  = tree.generate_directory_tree_text w2 start_path.
Proof.
  intros Hcwd Hstat1 Hstat2.
  rewrite (generate_run _ _ (stat_exists _ _ _ Hstat1)).
  rewrite (generate_run _ _ (stat_exists _ _ _ Hstat2)).
  rewrite !scan_run, (stat_walk _ _ _ Hstat1), (stat_walk _ _ _ Hstat2).
  rewrite Hcwd.
  destruct (report_read_part (os.getcwd w2) start_path _ _
              (walk_tree_prune n start_path)) as [-> ->].
  done.
Qed.

(** ** The tree reporter run as a script *)

Section script.

Import tree_main.

(** Opening the output file touches no other file, and empties it. *)
Lemma open_output_lookup (E : env) (fs opened : gmap string update_imports.file)
    (k : string) :
  open_output E fs = inr opened ->
  (k <> realpath E output_filename -> opened !! k = fs !! k) /\
  update_imports.text <$> opened !! realpath E output_filename
  = Some (Some "").
Proof.
  unfold open_output. cbn zeta.
  destruct (fs !! realpath E output_filename) as [f|].
  - destruct (update_imports.w_ok f); [|done]. intros [= <-].
    split; [intros Hk; by rewrite lookup_insert_ne|].
    by rewrite lookup_insert_eq.
  - destruct (create E (realpath E output_filename)); [done|].
    intros [= <-].
    split; [intros Hk; by rewrite lookup_insert_ne|].
    by rewrite lookup_insert_eq.
Qed.

(** Writing to the opened file touches no other file, and puts the text
    in it. *)
Lemma write_output_lookup (E : env) (output_text : string)
    (opened written : gmap string update_imports.file) (k : string) :
  is_Some (opened !! realpath E output_filename) ->
  write_output E output_text opened = inr written ->
  (k <> realpath E output_filename -> written !! k = opened !! k) /\
  update_imports.text <$> written !! realpath E output_filename
  = Some (Some output_text).
Proof.
  unfold write_output. intros [f Hf].
  destruct (encodable E output_text); [|done]. intros [= <-].
  split; [intros Hk; by rewrite lookup_alter_ne|].
  by rewrite lookup_alter_eq, Hf.
Qed.


End script.


(** X7: the script leaves every stored file other than the one its output
    path denotes as it was, however it ends. *)
Theorem script_frame (E : tree_main.env) (argv : list string)
    (file : string) (w : os.world) (fs : gmap string update_imports.file)
    (k : string) :
  k <> tree_main.realpath E tree_main.output_filename ->
  (tree_main.script E argv file w fs).1.2 !! k = fs !! k.
Proof.
  intros Hk. unfold tree_main.script.
  destruct (tree.generate_directory_tree_text w
              (tree_main.target_path argv file w))
    as [output_text found_files].
  unfold tree_main.save.
  destruct (tree_main.open_output E fs) as [e|opened] eqn:Hopen.
  - by destruct (tree_main.console E e output_text []).
  - destruct (open_output_lookup E fs opened k Hopen) as [Hother _].
    destruct (open_output_lookup E fs opened
                (tree_main.realpath E tree_main.output_filename) Hopen)
      as [_ Hempty].
    destruct (tree_main.write_output E output_text opened)
      as [e|written] eqn:Hwrite.
    + destruct (tree_main.console E e output_text []). cbn [fst snd].
      by apply Hother.
    + assert (is_Some
                (opened !! tree_main.realpath E tree_main.output_filename))
        as Hsome.
      { destruct (opened !! tree_main.realpath E tree_main.output_filename);
          [by eexists|done]. }
      destruct (write_output_lookup E output_text opened written k
                  Hsome Hwrite) as [Hother' _].
      destruct (tree_main.print E _ []) as [log [e|[]]].
      * destruct (tree_main.console E e output_text log). cbn [fst snd].
        rewrite Hother' by done. by apply Hother.
      * cbn [fst snd]. rewrite Hother' by done. by apply Hother.
Qed.


(** ** The import rewriter: what the substitution does to a text *)

Section rewritten.

Import update_imports.

Lemma without_app (c : ascii) (s t : string) :
  without c (s +:+ t) = without c s +:+ without c t.
Proof.
  induction s as [|a s IH]; [done|]. rewrite append_cons.
  cbn [without]. destruct (Ascii.eqb a c); [done|].
  by rewrite append_cons, IH.
Qed.

(** A substitution whose replacement is the literal with some [c] put in
    only puts [c] in, and never makes the text shorter. *)
Lemma sub_without (c : ascii) (lit repl s : string) :
  lit <> "" -> without c repl = without c lit ->
  String.length lit <= String.length repl ->
  without c (sub lit repl s) = without c s /\
  String.length s <= String.length (sub lit repl s).
Proof.
  intros Hlit Hrepl Hlen.
  remember (String.length s) as k eqn:Hk. revert s Hk.
  induction k as [k IH] using lt_wf_ind. intros s ->.
  rewrite sub_unfold by done.
  destruct (strip_prefix lit s) as [rest|] eqn:Hs.
  - pose proof (strip_prefix_length _ _ _ Hs) as Hslen.
    apply strip_prefix_app in Hs. subst s.
    assert (0 < String.length lit) by (destruct lit; [done|simpl; lia]).
    destruct (IH (String.length rest) ltac:(lia) rest eq_refl) as [IH1 IH2].
    rewrite !without_app, IH1, Hrepl, !append_length. split; [done|lia].
  - destruct s as [|a s]; [done|].
    destruct (IH (String.length s) ltac:(simpl; lia) s eq_refl) as [IH1 IH2].
    cbn [without String.length]. rewrite IH1. split; [done|lia].
Qed.

End rewritten.

(** X9: the substitutions only put [#] characters in: taking every [#]
    out of the rewritten text and out of the original gives the same
    text, and the rewritten text is never shorter. *)
Theorem rewrite_only_inserts (s : string) :
  update_imports.without "#" (update_imports.rewrite s)
  = update_imports.without "#" s /\
  String.length s <= String.length (update_imports.rewrite s).
Proof.
  rewrite rewrite_unfold.
  destruct (sub_without "#" update_imports.from_lit update_imports.from_repl
              s) as [H1 H2]; [done|done|simpl; lia|].
  destruct (sub_without "#" update_imports.require_lit
              update_imports.require_repl
              (update_imports.sub update_imports.from_lit
                 update_imports.from_repl s)) as [H3 H4];
    [done|done|simpl; lia|].
  rewrite H3, H1. split; [done|lia].
Qed.

(** X10: after the substitutions neither of the two old forms occurs in
    the text. *)
Theorem rewrite_leaves_no_old_form (s : string) :
  update_imports.occurs "from '@/" (update_imports.rewrite s) = false /\
  update_imports.occurs "require('@/" (update_imports.rewrite s) = false.
Proof.
  split; [apply rewrite_free_from | apply rewrite_free_require].
Qed.

(** X11: the substitutions leave a text as it is exactly when neither of
    the two old forms occurs in it. *)
Theorem rewrite_fixed_iff (s : string) :
  update_imports.rewrite s = s <->
  update_imports.occurs "from '@/" s = false /\
  update_imports.occurs "require('@/" s = false.
Proof.
  split.
  - intros Heq. rewrite <- Heq.
    split; [apply rewrite_free_from | apply rewrite_free_require].
  - intros [Hfrom Hrequire]. by apply rewrite_free.
Qed.

(** ** The import rewriter: what a run does to the store *)

Section store.

Import update_imports.

Lemma update_imports_other (E : env) (file_path k : string)
    (fs : gmap string file) :
  k <> realpath E file_path ->
  store_of (update_imports_in E file_path fs) !! k = fs !! k.
Proof.
  intros Hk. rewrite update_imports_store.
  destruct (will_write E fs file_path); [|done].
  by rewrite lookup_alter_ne.
Qed.

(** [update_imports] changes the permissions of no file, and no file
    appears or disappears. *)
Lemma update_imports_flags (E : env) (file_path k : string)
    (fs : gmap string file) :
  r_ok <$> store_of (update_imports_in E file_path fs) !! k
  = r_ok <$> fs !! k /\
  w_ok <$> store_of (update_imports_in E file_path fs) !! k
  = w_ok <$> fs !! k.
Proof.
  rewrite update_imports_store.
  destruct (will_write E fs file_path); [|done].
  destruct (decide (k = realpath E file_path)) as [->|Hne].
  - rewrite lookup_alter_eq. destruct (fs !! realpath E file_path); [|done].
    cbn [fmap option_fmap option_map].
    by rewrite r_ok_rewritten, w_ok_rewritten.
  - by rewrite lookup_alter_ne.
Qed.

(** The store after [main] is the store after the batch, however the run
    ends. *)
Lemma main_store (E : env) (w : os.world) (fs : gmap string file) :
  store_of (main_in E w fs)
  = store_of
      (for_each (js_files (os.walk w ROOT_DIR)) (update_imports_in E) fs).
Proof.
  destruct (os.path_isdir w ROOT_DIR) eqn:Hdir.
  - rewrite main_run, bind_run by done.
    destruct (for_each _ (update_imports_in E) fs) as [[log fs'] [e|[]]];
      [done|].
    unfold print. by destruct (stdout E Completed).
  - unfold main_in. rewrite Hdir. cbn [negb].
    unfold os.path_isdir, os.walk in *.
    unfold print. destruct (stdout E RootMissing);
      by destruct (os.stat w ROOT_DIR) as [[| |]|].
Qed.

(** Rewriting the files of a batch a second time changes nothing. *)
Lemma settled_settled (E : env) (paths : list string)
    (fs : gmap string file) :
  settled E paths (settled E paths fs) = settled E paths fs.
Proof.
  apply map_eq. intros k. rewrite !settled_lookup.
  destruct (decide (k ∈ realpath E <$> paths)); [|done].
  destruct (fs !! k) as [f|]; [|done].
  cbn [fmap option_fmap option_map]. by rewrite rewritten_rewritten.
Qed.

End store.

(** X12: [update_imports] changes at most the text of the file its path
    denotes, however it ends: every other stored file is as before, and
    so are the permissions of that file; no file appears or disappears. *)
Theorem update_imports_frame (E : update_imports.env) (file_path : string)
    (fs : gmap string update_imports.file) :
  let key := update_imports.realpath E file_path in
  let fs' :=
    update_imports.store_of
      (update_imports.update_imports_in E file_path fs) in
  (forall k, k <> key -> fs' !! k = fs !! k) /\
  update_imports.r_ok <$> (fs' !! key)
  = update_imports.r_ok <$> (fs !! key) /\
  update_imports.w_ok <$> (fs' !! key)
  = update_imports.w_ok <$> (fs !! key).
Proof.
  cbn zeta. split; [intros k Hk; by apply update_imports_other|].
  apply update_imports_flags.
Qed.


(** X14: however [main] ends, it leaves every stored file that no [.js]
    path of the walk denotes as it was; it changes the permissions of no
    file, and no file appears or disappears. *)
Theorem main_frame (E : update_imports.env) (w : os.world)
    (fs : gmap string update_imports.file) :
  let fs' := update_imports.store_of (update_imports.main_in E w fs) in
  (forall k,
     k ∉ update_imports.realpath E
           <$> update_imports.js_files (os.walk w update_imports.ROOT_DIR) ->
     fs' !! k = fs !! k) /\
  (forall k,
     update_imports.r_ok <$> (fs' !! k) = update_imports.r_ok <$> (fs !! k) /\
     update_imports.w_ok <$> (fs' !! k) = update_imports.w_ok <$> (fs !! k)).
Proof.
  cbn zeta. rewrite main_store. split.
  - intros k Hk.
    apply (for_each_keeps (fun a b => b !! k = a !! k)); [done|congruence|].
    intros p fs0 Hp. apply update_imports_other. intros ->. apply Hk.
    by apply list_elem_of_fmap_2.
  - intros k.
    apply (for_each_keeps
             (fun a b =>
                update_imports.r_ok <$> (b !! k)
                = update_imports.r_ok <$> (a !! k) /\
                update_imports.w_ok <$> (b !! k)
                = update_imports.w_ok <$> (a !! k))); [done| |].
    + intros a b c [-> ->] [-> ->]. done.
    + intros p fs0 _. apply update_imports_flags.
Qed.

(** X15: running [main] a second time changes nothing: the store after
    two runs is the store after one. *)
Theorem main_twice (w : os.world) (fs : gmap string update_imports.file) :
  update_imports.store_of
    (update_imports.main w
       (update_imports.store_of (update_imports.main w fs)))
  = update_imports.store_of (update_imports.main w fs).
Proof.
  unfold update_imports.main. rewrite !main_store.
  assert (update_imports.accepting update_imports.plain) as HE by done.
  assert (forall fs0,
            update_imports.store_of
              (update_imports.for_each
                 (update_imports.js_files
                    (os.walk w update_imports.ROOT_DIR))
                 (update_imports.update_imports_in update_imports.plain)
                 fs0)
            = update_imports.settled update_imports.plain
                (update_imports.js_files (os.walk w update_imports.ROOT_DIR))
                fs0) as Hbatch.
  { intros fs0. by apply for_each_update_imports. }
  rewrite !Hbatch. apply settled_settled.
Qed.

(** ** Paths: taking a joined path apart *)

Section apart.

Import posixpath.

Lemma through_last_free (c : ascii) (s : string) :
  Py.count c s = 0 -> Py.through_last c s = "".
Proof. destruct s as [|a s]; [done|]. cbn [Py.through_last]. by intros ->. Qed.

Lemma through_last_cons (c a : ascii) (s : string) :
  Py.through_last c (String a s)
  = if Py.count c (String a s) =? 0 then ""
    else String a (Py.through_last c s).
Proof. reflexivity. Qed.

Lemma through_last_app (c : ascii) (p name : string) :
  Py.count c name = 0 ->
  Py.through_last c (p +:+ String c "" +:+ name) = p +:+ String c "".
Proof.
  intros Hname. induction p as [|a p IH].
  - rewrite !append_nil_l, append_cons, append_nil_l.
    rewrite through_last_cons. cbn [Py.count]. rewrite Ascii.eqb_refl.
    cbn [Nat.add Nat.eqb]. by rewrite through_last_free.
  - rewrite !(append_cons a p), through_last_cons, IH.
    assert (Py.count c (String a (p +:+ String c "" +:+ name)) <> 0) as Hc.
    { cbn [Py.count]. rewrite !count_app. cbn [Py.count].
      rewrite Ascii.eqb_refl. lia. }
    apply Nat.eqb_neq in Hc. by rewrite Hc.
Qed.

Lemma rstrip_snoc (c : ascii) (s : string) :
  Py.rstrip c (s +:+ String c "") = Py.rstrip c s.
Proof.
  induction s as [|a s IH].
  - rewrite append_nil_l. cbn. by rewrite Ascii.eqb_refl.
  - rewrite append_cons. cbn [Py.rstrip]. by rewrite IH.
Qed.

Lemma rstrip_id (c : ascii) (s : string) :
  Py.endswith (String c "") s = false -> Py.rstrip c s = s.
Proof.
  induction s as [|a s IH]; [done|]. cbn [Py.endswith Py.rstrip].
  intros [Hhead Hs]%orb_false_iff. rewrite (IH Hs).
  destruct (String.eqb_spec s "") as [->|_]; [|done].
  destruct (Ascii.eqb_spec a c) as [->|_]; [|done].
  by rewrite String.eqb_refl in Hhead.
Qed.

Lemma lstrip_all (c : ascii) (s : string) :
  s <> "" -> Py.lstrip c s = "" -> Py.endswith (String c "") s = true.
Proof.
  induction s as [|a s IH]; [done|]. intros _. cbn [Py.lstrip Py.endswith].
  destruct (Ascii.eqb_spec a c) as [->|_]; [|done]. intros Hs.
  destruct s as [|b s]; [by rewrite String.eqb_refl|].
  rewrite IH by done. apply orb_true_r.
Qed.

Lemma lstrip_app_nonempty (c : ascii) (s t : string) :
  Py.lstrip c s <> "" -> Py.lstrip c (s +:+ t) <> "".
Proof.
  induction s as [|a s IH]; [done|]. rewrite append_cons.
  cbn [Py.lstrip]. by destruct (Ascii.eqb a c).
Qed.

End apart.

(** X16: joining a name to a directory path that does not end with a
    separator and taking the result apart gives the two back: its
    [dirname] is the directory and its [basename] is the name. *)
Theorem dirname_basename_join (p name : string) :
  p <> "" ->
  Py.endswith "/" p = false ->
  os.good_name name = true ->
  posixpath.dirname (posixpath.join p name) = p /\
  posixpath.basename (posixpath.join p name) = name.
Proof.
  intros Hp Hend Hname. split.
  - pose proof (good_name_spec _ Hname) as (_ & _ & _ & Hfree).
    rewrite (join_relative_r _ _ (good_name_relative _ Hname)).
    change posixpath.sep with "/". rewrite Hend.
    destruct (String.eqb_spec p "") as [|_]; [done|]. cbn [orb].
    unfold posixpath.dirname. rewrite through_last_app by done.
    assert (Py.lstrip posixpath.sep_char p <> "") as Hstrip.
    { intros Hs. apply lstrip_all in Hs; [|done].
      unfold posixpath.sep_char in Hs. by rewrite Hend in Hs. }
    pose proof (lstrip_app_nonempty _ _ "/" Hstrip) as Hstrip'.
    apply String.eqb_neq in Hstrip'. rewrite Hstrip'.
    assert (p +:+ "/" <> "") as Hne by by apply append_nonempty_r.
    apply String.eqb_neq in Hne. rewrite Hne. cbn [negb andb].
    by rewrite rstrip_snoc, rstrip_id.
  - change (posixpath.join p name) with (os.descend p ([] ++ [name])).
    by apply basename_descend.
Qed.

(** X17: for a root directory the report starts with the header, the
    marker of the root and one line with one indent glyph for each file
    directly in the root, and the file list starts with the paths of
    those files; everything from the subdirectories comes after, also
    when the listing of the root names a subdirectory first. *)
Theorem root_files_first (w : os.world) (start_path : string)
    (entries : list (string * os.node)) :
  os.stat w start_path = Some (os.Dir entries) ->
  let cwd := os.getcwd w in
  let below :=
    flat_map (fun e => os.walk_tree (posixpath.join start_path e.1) e.2)
      entries in
  (tree.scan w start_path).1
  = [ "Scanning directory tree from: "
        +:+ posixpath.abspath cwd start_path +:+ Py.nl;
      "./" ]
    ++ map (fun file_name => "│   ├── " +:+ file_name)
         (os.filenames entries)
    ++ flat_map (tree.entry_lines cwd start_path) below
    ++ tree.summary_block (tree.scan w start_path).2 /\
  (tree.scan w start_path).2
  = map (posixpath.join start_path) (os.filenames entries)
    ++ map tree.visit_path (tree.visits below).
Proof.
  intros Hstat cwd below. subst cwd.
  rewrite scan_run, (stat_walk _ _ _ Hstat).
  cbn [fst snd os.walk_tree flat_map]. fold below.
  rewrite visits_head, map_app, map_map. split; [|done].
  unfold tree.entry_lines at 1.
  destruct (root_lines (os.getcwd w) start_path (os.dirnames entries)
              (os.filenames entries)) as [-> Hfiles].
  unfold tree.visits at 1. cbn [flat_map].
  rewrite (right_id_L [] (++)), map_map.
  cbn [app]. do 2 f_equal. rewrite <- (assoc_L (++)). f_equal.
  apply Forall_fmap_ext. eapply Forall_impl; [exact Hfiles|].
  intros file_name ->. reflexivity.
Qed.

(** ** The further properties on the sample filesystems *)

Lemma unlistable_root_report_witness :
  os.stat examples.world_odd "notes.txt" = Some os.File /\
  (os.File = os.File \/ os.File = os.Opaque) /\
  tree.generate_directory_tree_text examples.world_odd "notes.txt"
  = (Py.join Py.nl
       [ "Scanning directory tree from: "
           +:+ posixpath.abspath (os.getcwd examples.world_odd) "notes.txt"
           +:+ Py.nl;
         "No files found or an error occurred during scanning." ],
     []).
Proof.
  split; [reflexivity|]. split; [by left|].
  apply (unlistable_root_report examples.world_odd "notes.txt" os.File);
    [reflexivity|by left].
Defined.

Lemma found_files_count_witness :
  os.stat examples.world_odd "proj"
  = Some (os.Dir [("a.txt", os.File); ("lnk", os.Opaque);
                  ("sub", os.Dir [("b.txt", os.File);
                                  ("lnk2", os.Opaque)])]) /\
  length (tree.generate_directory_tree_text examples.world_odd "proj").2
  = os.count_files
      (os.Dir [("a.txt", os.File); ("lnk", os.Opaque);
               ("sub", os.Dir [("b.txt", os.File); ("lnk2", os.Opaque)])]).
Proof.
  split; [reflexivity|].
  apply (found_files_count examples.world_odd "proj"). reflexivity.
Defined.


Lemma found_files_under_root_witness :
  os.stat examples.world "/tmp/x" = Some examples.tmp_x /\
  os.well_named examples.tmp_x = true /\
  Forall2 (fun path (v : string * string) =>
             Py.startswith "/tmp/x" path = true /\
             posixpath.basename path = v.2)
    (tree.generate_directory_tree_text examples.world "/tmp/x").2
    (tree.visits (os.walk examples.world "/tmp/x")).
Proof.
  split; [reflexivity|]. split; [reflexivity|].
  apply (found_files_under_root examples.world "/tmp/x" examples.tmp_x);
    reflexivity.
Defined.

Lemma unentered_entries_invisible_witness :
  os.getcwd examples.world_odd = os.getcwd examples.world_pruned /\
  os.stat examples.world_odd "proj" = Some examples.linked /\
  os.stat examples.world_pruned "proj" = Some (os.prune examples.linked) /\
  tree.generate_directory_tree_text examples.world_odd "proj"
  = tree.generate_directory_tree_text examples.world_pruned "proj".
Proof.
  split; [reflexivity|]. split; [reflexivity|]. split; [reflexivity|].
  apply (unentered_entries_invisible examples.world_odd
           examples.world_pruned "proj" examples.linked); reflexivity.
Defined.

Lemma script_frame_witness :
  "keep.txt"
  <> tree_main.realpath examples.console tree_main.output_filename /\
  (tree_main.script examples.console ["tree.py"; "proj"] "tree.py"
     examples.world_odd examples.files_kept).1.2 !! "keep.txt"
  = examples.files_kept !! "keep.txt".
Proof.
  split; [discriminate|].
  apply (script_frame examples.console ["tree.py"; "proj"] "tree.py"
           examples.world_odd examples.files_kept "keep.txt").
  discriminate.
Defined.



Lemma dirname_basename_join_witness :
  "/home/u/proj" <> "" /\
  Py.endswith "/" "/home/u/proj" = false /\
  os.good_name "tree.py" = true /\
  posixpath.dirname (posixpath.join "/home/u/proj" "tree.py")
  = "/home/u/proj" /\
  posixpath.basename (posixpath.join "/home/u/proj" "tree.py") = "tree.py".
Proof.
  split; [discriminate|]. split; [reflexivity|]. split; [reflexivity|].
  apply (dirname_basename_join "/home/u/proj" "tree.py");
    [discriminate|reflexivity|reflexivity].
Defined.

Lemma root_files_first_witness :
  os.stat examples.world_odd "proj"
  = Some (os.Dir [("a.txt", os.File); ("lnk", os.Opaque);
                  ("sub", os.Dir [("b.txt", os.File);
                                  ("lnk2", os.Opaque)])]) /\
  let entries :=
    [("a.txt", os.File); ("lnk", os.Opaque);
     ("sub", os.Dir [("b.txt", os.File); ("lnk2", os.Opaque)])] in
  let cwd := os.getcwd examples.world_odd in
  let below :=
    flat_map (fun e => os.walk_tree (posixpath.join "proj" e.1) e.2)
      entries in
  (tree.scan examples.world_odd "proj").1
  = [ "Scanning directory tree from: "
        +:+ posixpath.abspath cwd "proj" +:+ Py.nl;
      "./" ]
    ++ map (fun file_name => "│   ├── " +:+ file_name)
         (os.filenames entries)
    ++ flat_map (tree.entry_lines cwd "proj") below
    ++ tree.summary_block (tree.scan examples.world_odd "proj").2 /\
  (tree.scan examples.world_odd "proj").2
  = map (posixpath.join "proj") (os.filenames entries)
    ++ map tree.visit_path (tree.visits below).
Proof.
  split; [reflexivity|].
  apply (root_files_first examples.world_odd "proj"). reflexivity.
Defined.

(** The script on the samples: a refused write sends the report to the
    console and leaves the old output file; a report that does not encode
    leaves the output file empty; an output file that cannot be created
    leaves the store as it was; an output path that is a link has the
    file it points to replaced; and the default target is the directory
    of the script. *)
Example script_samples :
  (tree_main.script examples.console ["tree.py"; "notes.txt"] "tree.py"
     examples.world_odd examples.files_locked)
  = ([ tree_main.ErrorSaving update_imports.PermissionError;
       tree_main.ConsoleHeader;
       tree_main.ConsoleText
         (Py.join Py.nl
            [ "Scanning directory tree from: /home/u/notes.txt" +:+ Py.nl;
              "No files found or an error occurred during scanning." ]) ],
     examples.files_locked, inr tt) /\
  (let run :=
     tree_main.script examples.console_strict ["tree.py"; "odd"] "tree.py"
       examples.world_names examples.files_kept in
   run.1.2 !! "directory_tree_output.txt"
   = Some (update_imports.File (Some "") true true) /\
   head run.1.1
   = Some (tree_main.ErrorSaving update_imports.UnicodeEncodeError)) /\
  (let run :=
     tree_main.script examples.console_strict ["tree.py"; "proj"] "tree.py"
       examples.world_odd examples.files in
   run.1.2 = examples.files /\
   head run.1.1
   = Some (tree_main.ErrorSaving update_imports.PermissionError)) /\
  (let run :=
     tree_main.script examples.console_link ["tree.py"; "notes.txt"]
       "tree.py" examples.world_odd examples.files_kept in
   run.1.2 !! "directory_tree_output.txt"
   = examples.files_kept !! "directory_tree_output.txt" /\
   update_imports.text <$> run.1.2 !! "keep.txt"
   = Some (Some (Py.join Py.nl
                   [ "Scanning directory tree from: /home/u/notes.txt"
                       +:+ Py.nl;
                     "No files found or an error occurred during scanning."
                   ]))) /\
  tree_main.target_path ["tree.py"] "proj/tree.py" examples.world_odd
  = "/home/u/proj" /\
  tree_main.target_path ["tree.py"; "proj"] "proj/tree.py" examples.world_odd
  = "proj" /\
  posixpath.dirname "/c.py" = "/" /\
  posixpath.dirname "c.py" = "" /\
  posixpath.dirname "a//b" = "a".
Proof. repeat split; vm_compute; reflexivity. Qed.
